(** * GridMap: the growable occupancy grid of vigir_terrain_classifier

    Shallow embedding of [src/grid_map/grid_map.cpp].

    Numeric model.  A C++ [double] is an exact rational ([Q]): rounding
    error, overflow, infinities and NaN are outside the model, and Rocq's
    convention [q / 0 == 0] stands where IEEE arithmetic would produce an
    infinity or a NaN.  The one [float] of the program, the resolution
    field of the message, is a rational too; a [double] stored in it is
    rounded to single precision ([to_float]).  [unsigned int] and [int]
    are 32-bit and are
    carried as [Z] with the wrap-around written out ([to_uint], [to_int]);
    a conversion from [double] that does not fit, undefined in C++, wraps
    likewise.  An [int8_t] cell is a [Z].  A [memcpy] that leaves one of
    its buffers, and a division of integers by zero, are undefined
    behaviour and are modelled by [None]. *)

From Stdlib Require Import String ZArith QArith Qround Qabs List Bool Lia Lqa.
Import ListNotations.

Local Open Scope Z_scope.

(** ** Machine integers *)

Definition to_uint (v : Z) : Z := v mod 2 ^ 32.

Definition to_int (v : Z) : Z := (v + 2 ^ 31) mod 2 ^ 32 - 2 ^ 31.

Definition INT_MAX : Z := 2 ^ 31 - 1.

Definition UINT_MAX : Z := 2 ^ 32 - 1.

(** [std::numeric_limits<int8_t>::min()], the "unknown" cell value. *)
Definition int8_min : Z := -128.

(** ** Doubles *)

(** [std::numeric_limits<double>::max()]. *)
Definition DBL_MAX : Q := inject_Z ((2 ^ 53 - 1) * 2 ^ 971).

(** [std::numeric_limits<double>::min()]: the smallest positive normal
    double, not the most negative one. *)
Definition DBL_MIN : Q := 1 # (2 ^ 1022).

Definition Qlt_bool (a b : Q) : bool := negb (Qle_bool b a).

(** [std::max(a, b)] is [(a < b) ? b : a]. *)
Definition std_max (a b : Q) : Q := if Qlt_bool a b then b else a.

(** [std::min(a, b)] is [(b < a) ? b : a]. *)
Definition std_min (a b : Q) : Q := if Qlt_bool b a then b else a.

Definition ceil (q : Q) : Z := Qceiling q.

Definition floor (q : Q) : Z := Qfloor q.

(** C's [round]: to the nearest integer, halfway cases away from zero. *)
Definition round (q : Q) : Z :=
  if Qle_bool 0 q then Qfloor (q + (1 # 2)) else Qceiling (q - (1 # 2)).

(** *** Single precision *)

(** [floor (log2 q)] of a positive [q]. *)
Definition Qlog2 (q : Q) : Z :=
  let k := Z.log2 (Qnum q) - Z.log2 (Zpos (Qden q)) in
  if Qle_bool (Qpower 2 k) q then k else k - 1.

(** To the nearest integer, halfway cases to the even one. *)
Definition rint (q : Q) : Z :=
  let f := Qfloor q in
  match (q - inject_Z f ?= 1 # 2)%Q with
  | Lt => f
  | Eq => if Z.even f then f else f + 1
  | Gt => f + 1
  end.

(** The conversion of a [double] to [float] that an assignment to a
    [float] performs: the nearest number with a significand of 24 bits
    (the spacing stops shrinking below [2 ^ -126]), halfway cases to the
    even significand.  The result is in lowest terms.  Values beyond the
    range of [float] become infinite in C++ and are outside the model. *)
Definition to_float (q : Q) : Q :=
  if Qeq_bool q 0 then 0%Q
  else
    let a := Qabs q in
    let ulp := Qpower 2 (Z.max (Qlog2 a) (-126) - 23) in
    let m := (inject_Z (rint (a / ulp)) * ulp)%Q in
    Qred (if Qle_bool 0 q then m else (- m)%Q).

(** Modelled from the spec: [pceil] and [pfloor] come from the footstep
    planning library and are not part of this repository's sources.
    "[pceil(value, step)] rounds up to the nearest multiple of [step];
    [pfloor(value, step)] rounds down.  Both must handle negative values
    correctly."  A step of [0] is outside that contract; here it yields [0]
    (IEEE arithmetic yields NaN). *)
Definition pceil (v step : Q) : Q := (inject_Z (ceil (v / step)) * step)%Q.

(** Modelled from the spec: the companion of [pceil], "[pfloor] rounds
    down" to a multiple of [step]. *)
Definition pfloor (v step : Q) : Q := (inject_Z (floor (v / step)) * step)%Q.

(** ** Messages *)

Module geometry_msgs.
Record Vector3 : Type := { x : Q; y : Q; z : Q }.
End geometry_msgs.

Module std_msgs.
Record Header : Type := { seq : Z; frame_id : string }.
End std_msgs.

Module nav_msgs.
(** [nav_msgs/MapMetaData]: [resolution] is the message's [float32]
    field, the other numbers are [uint32] and [float64]. *)
Record MapMetaData : Type :=
  { resolution : Q;
    width : Z;
    height : Z;
    origin : geometry_msgs.Vector3 }.

Record OccupancyGrid : Type :=
  { header : std_msgs.Header;
    info : MapMetaData;
    data : list Z }.

(** [new nav_msgs::OccupancyGrid()]: the constructor that ROS generates
    for the message sets every number to zero and leaves every sequence
    empty. *)
Definition new_OccupancyGrid : OccupancyGrid :=
  {| header := {| std_msgs.seq := 0; std_msgs.frame_id := EmptyString |};
     info := {| resolution := 0; width := 0; height := 0;
                origin := {| geometry_msgs.x := 0;
                             geometry_msgs.y := 0;
                             geometry_msgs.z := 0 |} |};
     data := [] |}.
End nav_msgs.

Import geometry_msgs std_msgs nav_msgs.

(** A point of the cloud handed to [resize]; PCL stores single-precision
    coordinates, widened to [double] when they are read. *)
Module pcl.
Record PointXYZ : Type := { px : Q; py : Q; pz : Q }.
End pcl.

(** ** Raw memory *)

(** [memcpy(&dst[d], &src[s], n)] on two vectors, [n] being a size (never
    negative).  Copying nothing is always fine; otherwise both ranges must
    lie inside their vectors. *)
Definition memcpy (dst : list Z) (d : Z) (src : list Z) (s : Z) (n : Z)
  : option (list Z) :=
  if n <=? 0 then Some dst
  else if (0 <=? d) && (d + n <=? Z.of_nat (List.length dst))
          && (0 <=? s) && (s + n <=? Z.of_nat (List.length src))
       then Some (firstn (Z.to_nat d) dst
                    ++ firstn (Z.to_nat n) (skipn (Z.to_nat s) src)
                    ++ skipn (Z.to_nat (d + n)) dst)
       else None.

(** ** The grid map *)

Module GridMap.

Record t : Type :=
  { grid_map : OccupancyGrid;
    min : Vector3;
    max : Vector3;
    min_expansion_size : Q }.

Definition with_data (m : OccupancyGrid) (d : list Z) : OccupancyGrid :=
  {| header := header m; info := info m; data := d |}.

Definition with_seq (m : OccupancyGrid) (s : Z) : OccupancyGrid :=
  {| header := {| seq := s; frame_id := frame_id (header m) |};
     info := info m; data := data m |}.

Definition sentinel_min : Vector3 := {| x := DBL_MAX; y := DBL_MAX; z := DBL_MAX |}.

Definition sentinel_max : Vector3 := {| x := DBL_MIN; y := DBL_MIN; z := DBL_MIN |}.

(** [GridMap::clear]: the cells and the sequence number go, the bounds
    become the sentinels; [info] (width and height included) stays. *)
Definition clear (g : t) : t :=
  {| grid_map := with_seq (with_data (grid_map g) []) 0;
     min := sentinel_min;
     max := sentinel_max;
     min_expansion_size := min_expansion_size g |}.

Definition empty (g : t) : bool :=
  match data (grid_map g) with [] => true | _ :: _ => false end.

(** [GridMap::at] hands out a reference into the buffer or throws:
    [at_] reads through it, [set_at] writes through it. *)
Definition at_ (g : t) (idx : Z) : option Z :=
  if idx <? 0 then None else nth_error (data (grid_map g)) (Z.to_nat idx).

Definition set_at (g : t) (idx : Z) (v : Z) : option t :=
  match at_ g idx with
  | None => None
  | Some _ =>
      let d := data (grid_map g) in
      Some {| grid_map := with_data (grid_map g)
                            (firstn (Z.to_nat idx) d ++ v :: skipn (S (Z.to_nat idx)) d);
              min := min g; max := max g;
              min_expansion_size := min_expansion_size g |}
  end.

(** [GridMap::fromMsg]: the message replaces the grid, and only the
    lower corner of the bounds is taken from it. *)
Definition fromMsg (g : t) (map : OccupancyGrid) : t :=
  {| grid_map := map;
     min := origin (info map);
     max := max g;
     min_expansion_size := min_expansion_size g |}.

Definition toMsg (g : t) : OccupancyGrid := grid_map g.

(** [GridMap::GridMap(frame_id, resolution, min_expansion_size)];
    [frame] is the frame id as the external [strip_const] returns it.
    The message keeps the resolution in single precision, while the
    expansion size is rounded against the [double] that was passed in. *)
Definition create (frame : string) (resolution min_expansion_size : Q) : t :=
  clear
    {| grid_map :=
         {| header := {| seq := 0; frame_id := frame |};
            info := {| nav_msgs.resolution := to_float resolution;
                       width := 0; height := 0;
                       origin := {| x := 0; y := 0; z := 0 |} |};
            data := [] |};
       min := {| x := 0; y := 0; z := 0 |};
       max := {| x := 0; y := 0; z := 0 |};
       min_expansion_size := pceil min_expansion_size resolution |}.

(** [GridMap::GridMap(map, min_expansion_size)]: the expansion size is
    rounded against the resolution of the freshly allocated message,
    before [fromMsg] brings in the resolution of [map]. *)
Definition loadFrom (map : OccupancyGrid) (min_expansion_size : Q) : t :=
  let fresh := new_OccupancyGrid in
  fromMsg
    (clear
       {| grid_map := fresh;
          min := {| x := 0; y := 0; z := 0 |};
          max := {| x := 0; y := 0; z := 0 |};
          min_expansion_size :=
            pceil min_expansion_size (resolution (info fresh)) |})
    map.

(** *** Coordinate conversions *)

(** The range test that each conversion spells out:
    [map_x < 0 || width <= (unsigned) map_x || map_y < 0 || height <= (unsigned) map_y]. *)
Definition out_of_bounds (map : OccupancyGrid) (map_x map_y : Z) : bool :=
  (map_x <? 0) || (width (info map) <=? to_uint map_x)
  || (map_y <? 0) || (height (info map) <=? to_uint map_y).

(** [getGridMapCoords(map, x, y, map_x, map_y)]: the flag returned and
    the two coordinates written, which are written on failure too. *)
Definition getGridMapCoords_world (map : OccupancyGrid) (x y : Q) : bool * (Z * Z) :=
  let i := info map in
  let map_x := to_int (round ((x - geometry_msgs.x (origin i)) / resolution i)) in
  let map_y := to_int (round ((y - geometry_msgs.y (origin i)) / resolution i)) in
  (negb (out_of_bounds map map_x map_y), (map_x, map_y)).

(** [getGridMapCoords(map, idx, map_x, map_y)].  [idx] meets an unsigned
    width, so it is converted to unsigned before [%] and [/]; a zero
    width is a division by zero ([None]). *)
Definition getGridMapCoords_idx (map : OccupancyGrid) (idx : Z) : option (bool * (Z * Z)) :=
  let w := width (info map) in
  if w =? 0 then None
  else
    let map_x := to_int (to_uint idx mod w) in
    let map_y := to_int (to_uint idx / w) in
    Some (negb (out_of_bounds map map_x map_y), (map_x, map_y)).

(** [getGridMapIndex(map, map_x, map_y, idx)]: [idx] is left alone on
    failure. *)
Definition getGridMapIndex_coords (map : OccupancyGrid) (map_x map_y : Z) (idx : Z)
  : bool * Z :=
  if out_of_bounds map map_x map_y then (false, idx)
  else (true, to_int (to_uint (to_uint map_x
                               + to_uint (to_uint map_y * width (info map))))).

(** [getGridMapIndex(map, x, y, idx)]. *)
Definition getGridMapIndex_world (map : OccupancyGrid) (x y : Q) (idx : Z) : bool * Z :=
  let '(ok, (map_x, map_y)) := getGridMapCoords_world map x y in
  if ok then getGridMapIndex_coords map map_x map_y idx else (false, idx).

(** [getGridMapWorldCoords(map, map_x, map_y, x, y)]: no range test. *)
Definition getGridMapWorldCoords_coords (map : OccupancyGrid) (map_x map_y : Z)
  : bool * (Q * Q) :=
  let i := info map in
  (true, ((inject_Z map_x * resolution i + geometry_msgs.x (origin i))%Q,
          (inject_Z map_y * resolution i + geometry_msgs.y (origin i))%Q)).

(** [getGridMapWorldCoords(map, idx, x, y)]: [x] and [y] are left alone
    on failure. *)
Definition getGridMapWorldCoords_idx (map : OccupancyGrid) (idx : Z) (x y : Q)
  : option (bool * (Q * Q)) :=
  match getGridMapCoords_idx map idx with
  | None => None
  | Some (false, _) => Some (false, (x, y))
  | Some (true, (map_x, map_y)) => Some (getGridMapWorldCoords_coords map map_x map_y)
  end.

(** [getPointCloudBoundary]: one pass over the cloud. *)
Definition getPointCloudBoundary (cloud : list pcl.PointXYZ) : Vector3 * Vector3 :=
  fold_left
    (fun '(mn, mx) p =>
       ({| x := std_min (x mn) (pcl.px p);
           y := std_min (y mn) (pcl.py p);
           z := std_min (z mn) (pcl.pz p) |},
        {| x := std_max (x mx) (pcl.px p);
           y := std_max (y mx) (pcl.py p);
           z := std_max (z mx) (pcl.pz p) |}))
    cloud (sentinel_min, sentinel_max).

(** *** Growth *)

(** The test that opens [resize(min, max)]: the bounds already hold the
    requested box in x and y. *)
Definition covers (g : t) (rmin rmax : Vector3) : bool :=
  Qle_bool (x (min g)) (x rmin) && Qle_bool (y (min g)) (y rmin)
  && Qle_bool (x rmax) (x (max g)) && Qle_bool (y rmax) (y (max g)).

(** The bounds after the "init map" block: an empty buffer takes the
    snapped box, a filled one moves each edge that falls short. *)
Definition grown_bounds (g : t) (rmin rmax : Vector3) : Vector3 * Vector3 :=
  let res := resolution (info (grid_map g)) in
  let mes := min_expansion_size g in
  if empty g then
    ({| x := pfloor (x rmin) res; y := pfloor (y rmin) res; z := z (min g) |},
     {| x := pceil (x rmax) res; y := pceil (y rmax) res; z := z (max g) |})
  else
    ({| x := if Qlt_bool (x rmin) (x (min g))
             then (x (min g) - std_max (pceil (x (min g) - x rmin) res) mes)%Q
             else x (min g);
        y := if Qlt_bool (y rmin) (y (min g))
             then (y (min g) - std_max (pceil (y (min g) - y rmin) res) mes)%Q
             else y (min g);
        z := z (min g) |},
     {| x := if Qlt_bool (x (max g)) (x rmax)
             then (x (max g) + std_max (pceil (x rmax - x (max g)) res) mes)%Q
             else x (max g);
        y := if Qlt_bool (y (max g)) (y rmax)
             then (y (max g) + std_max (pceil (y rmax - y (max g)) res) mes)%Q
             else y (max g);
        z := z (max g) |}).

(** The new message before any row is copied: header and resolution of
    the old one, one more cell than the span in each direction, every
    cell unknown. *)
Definition allocate (old : OccupancyGrid) (mn mx : Vector3) : OccupancyGrid :=
  let res := resolution (info old) in
  let w := to_uint (to_uint (ceil ((x mx - x mn) / res)) + 1) in
  let h := to_uint (to_uint (ceil ((y mx - y mn) / res)) + 1) in
  {| header := header old;
     info := {| resolution := res; width := w; height := h;
                origin := {| x := x mn; y := y mn; z := z (origin (info old)) |} |};
     data := repeat int8_min (Z.to_nat (to_uint (w * h))) |}.

(** The row loop: [rows] rows of [old_w] cells, the source advancing by
    [old_w] and the destination by [new_w]. *)
Fixpoint copy_rows (rows : nat) (old_w new_w : Z) (src dst : list Z)
         (old_idx new_idx : Z) : option (list Z) :=
  match rows with
  | O => Some dst
  | S k =>
      match memcpy dst new_idx src old_idx old_w with
      | None => None
      | Some dst' =>
          copy_rows k old_w new_w src dst'
                    (to_int (to_uint (to_uint old_idx + old_w)))
                    (to_int (to_uint (to_uint new_idx + new_w)))
      end
  end.

(** [GridMap::resize(min, max)].  The flag of [getGridMapIndex] is
    dropped, so a failed conversion leaves [new_idx] at [0]. *)
Definition resize (g : t) (rmin rmax : Vector3) : option t :=
  if covers g rmin rmax then Some g
  else
    let '(mn, mx) := grown_bounds g rmin rmax in
    let old := grid_map g in
    let new := allocate old mn mx in
    let new_idx :=
      snd (getGridMapIndex_world new (x (origin (info old))) (y (origin (info old))) 0) in
    match copy_rows (Z.to_nat (height (info old))) (width (info old)) (width (info new))
                    (data old) (data new) 0 new_idx with
    | None => None
    | Some d =>
        Some {| grid_map := with_data new d;
                min := mn; max := mx;
                min_expansion_size := min_expansion_size g |}
    end.

(** [GridMap::resize(cloud)]. *)
Definition resize_cloud (g : t) (cloud : list pcl.PointXYZ) : option t :=
  match cloud with
  | [] => Some g
  | _ :: _ =>
      let '(update_min, update_max) := getPointCloudBoundary cloud in
      resize g update_min update_max
  end.

End GridMap.

(** ** Sample grids *)

Definition vec (a b c : Q) : Vector3 := {| x := a; y := b; z := c |}.

(** The grid of the growth scenario: resolution 0.1, minimum expansion
    size 0.2, grown from nothing to the box [0,1] x [0,1].  The message
    holds the resolution in single precision, 13421773 / 2^27, and the
    upper edges lie ten cells from the origin, just above 1. *)
Definition unit_square : GridMap.t :=
  Eval vm_compute in
    let g := GridMap.create "map" (1 # 10) (2 # 10) in
    match GridMap.resize g (vec 0 0 0) (vec 1 1 0) with
    | Some g' => g'
    | None => g
    end.

(** The message inside [unit_square]: 11 by 11 cells. *)
Definition unit_map : OccupancyGrid := GridMap.grid_map unit_square.

(** A grid map as [create] leaves it, at resolution 1. *)
Definition new_grid : GridMap.t := GridMap.create "map" 1 0.

(** A grid map with nothing allocated yet: resolution 0.25, minimum
    expansion size 0.5. *)
Definition fresh_grid : GridMap.t := GridMap.create "map" (1 # 4) (1 # 2).

(** A message of one cell, of value 7, whose corner is at (10.5, 10.5),
    and the grid map loaded from it. *)
Definition one_cell_msg : OccupancyGrid :=
  {| header := {| seq := 0; frame_id := "map" |};
     info := {| resolution := 1; width := 1; height := 1;
                origin := vec (21 # 2) (21 # 2) 0 |};
     data := [7] |}.

Definition loaded_cell : GridMap.t := GridMap.loadFrom one_cell_msg 1.

(** A message of 3 by 3 cells with its corner at (0.5, 0.5). *)
Definition nine_cell_msg : OccupancyGrid :=
  {| header := {| seq := 0; frame_id := "map" |};
     info := {| resolution := 1; width := 3; height := 3;
                origin := vec (1 # 2) (1 # 2) 0 |};
     data := [1; 2; 3; 4; 5; 6; 7; 8; 9] |}.

(** [unit_square] after it has grown to reach x = 1.05: 13 by 11 cells. *)
Definition grown_square : GridMap.t :=
  Eval vm_compute in
    match GridMap.resize unit_square (vec 0 0 0) (vec (105 # 100) 1 0) with
    | Some g' => g'
    | None => unit_square
    end.

(** A grid whose resolution single precision holds exactly: resolution
    0.125, minimum expansion size 0.25, grown from nothing to the box
    [0,1] x [0,1]; 9 by 9 cells. *)
Definition eighth_square : GridMap.t :=
  Eval vm_compute in
    let g := GridMap.create "map" (1 # 8) (1 # 4) in
    match GridMap.resize g (vec 0 0 0) (vec 1 1 0) with
    | Some g' => g'
    | None => g
    end.


(** Two points, one of them with no positive coordinate. *)
Definition two_points : list pcl.PointXYZ :=
  [ {| pcl.px := - (3 # 2); pcl.py := - (1 # 4); pcl.pz := 0 |};
    {| pcl.px := 5 # 4; pcl.py := - 2; pcl.pz := - (1 # 2) |} ].

(** The relation between the geometry and the buffer of a message. *)
Definition size_invariant (m : OccupancyGrid) : Prop :=
  width (info m) * height (info m) = Z.of_nat (length (data m)).

(** A value that is a whole number of steps. *)
Definition aligned (step q : Q) : Prop := exists k : Z, (q == inject_Z k * step)%Q.

(** The geometry that [resize] maintains on a grid map it has allocated:
    the origin is the lower corner of the bounds, the bounds span one
    cell less than the width and the height, the buffer has a cell for
    every coordinate pair, every index is an [int], and the minimum
    expansion size is a whole number of cells. *)
Definition consistent (g : GridMap.t) : Prop :=
  let m := GridMap.grid_map g in
  let res := resolution (info m) in
  (0 < res)%Q
  /\ (x (origin (info m)) == x (GridMap.min g))%Q
  /\ (y (origin (info m)) == y (GridMap.min g))%Q
  /\ 1 <= width (info m) /\ 1 <= height (info m)
  /\ (x (GridMap.max g) == x (GridMap.min g) + inject_Z (width (info m) - 1) * res)%Q
  /\ (y (GridMap.max g) == y (GridMap.min g) + inject_Z (height (info m) - 1) * res)%Q
  /\ size_invariant m
  /\ width (info m) * height (info m) <= INT_MAX
  /\ aligned res (GridMap.min_expansion_size g).

(** The cell of a buffer at an index, if there is one. *)
Definition cell (l : list Z) (i : Z) : option Z :=
  if i <? 0 then None else nth_error l (Z.to_nat i).


(** * Properties *)

(** ** Machine integers *)

Lemma to_uint_small (v : Z) : 0 <= v <= UINT_MAX -> to_uint v = v.
Proof. unfold to_uint, UINT_MAX. intros H. apply Z.mod_small. lia. Qed.

Lemma to_int_small (v : Z) : - 2 ^ 31 <= v <= INT_MAX -> to_int v = v.
Proof.
  unfold to_int, INT_MAX. intros H.
  rewrite Z.mod_small by lia. lia.
Qed.

Lemma to_int_range (v : Z) : - 2 ^ 31 <= to_int v <= INT_MAX.
Proof.
  unfold to_int, INT_MAX.
  pose proof (Z.mod_pos_bound (v + 2 ^ 31) (2 ^ 32) ltac:(lia)). lia.
Qed.

Lemma to_uint_range (v : Z) : 0 <= to_uint v <= UINT_MAX.
Proof.
  unfold to_uint, UINT_MAX.
  pose proof (Z.mod_pos_bound v (2 ^ 32) ltac:(lia)). lia.
Qed.

(** For a value that is an [int], the range test reads as it looks. *)
Lemma out_of_bounds_spec (map : OccupancyGrid) (gx gy : Z) :
  - 2 ^ 31 <= gx <= INT_MAX -> - 2 ^ 31 <= gy <= INT_MAX ->
  GridMap.out_of_bounds map gx gy = false
  <-> (0 <= gx < width (info map) /\ 0 <= gy < height (info map)).
Proof.
  intros Hx Hy. unfold GridMap.out_of_bounds, INT_MAX in *.
  rewrite !orb_false_iff, !Z.ltb_ge, !Z.leb_gt.
  split.
  - intros [[[H1 H2] H3] H4].
    rewrite to_uint_small in H2 by (unfold UINT_MAX; lia).
    rewrite to_uint_small in H4 by (unfold UINT_MAX; lia). lia.
  - intros [H1 H2].
    rewrite !to_uint_small by (unfold UINT_MAX; lia). lia.
Qed.

(** ** Index and grid coordinates *)

Lemma getGridMapCoords_idx_nonneg (map : OccupancyGrid) (idx : Z) :
  0 < width (info map) -> 0 <= idx <= INT_MAX ->
  GridMap.getGridMapCoords_idx map idx
  = Some (negb (GridMap.out_of_bounds map (idx mod width (info map)) (idx / width (info map))),
          (idx mod width (info map), idx / width (info map))).
Proof.
  intros Hw Hi. unfold GridMap.getGridMapCoords_idx.
  destruct (Z.eqb_spec (width (info map)) 0) as [E|_]; [lia|].
  unfold INT_MAX in Hi.
  rewrite (to_uint_small idx) by (unfold UINT_MAX; lia).
  pose proof (Z.mod_pos_bound idx (width (info map)) Hw) as Hm.
  pose proof (Z.mod_le idx (width (info map)) ltac:(lia) Hw) as Hm'.
  pose proof (Z.div_pos idx (width (info map)) ltac:(lia) Hw) as Hd.
  pose proof (Z.div_le_upper_bound idx (width (info map)) idx Hw ltac:(nia)) as Hd'.
  rewrite !to_int_small by (unfold INT_MAX; lia).
  reflexivity.
Qed.

(** C7: on a grid with positive width and height, decoding a linear index
    [0 <= idx < width * height] into grid coordinates succeeds, and
    encoding those coordinates gives [idx] back. *)
Theorem index_coords_roundtrip (map : OccupancyGrid) (idx idx0 : Z) :
  0 < width (info map) -> 0 < height (info map) ->
  0 <= idx < width (info map) * height (info map) ->
  idx <= INT_MAX ->
  exists gx gy,
    GridMap.getGridMapCoords_idx map idx = Some (true, (gx, gy))
    /\ GridMap.getGridMapIndex_coords map gx gy idx0 = (true, idx).
Proof.
  intros Hw Hh Hi Hmax.
  set (w := width (info map)) in *. set (h := height (info map)) in *.
  exists (idx mod w), (idx / w).
  pose proof (Z.mod_pos_bound idx w Hw) as Hm.
  pose proof (Z.mod_le idx w ltac:(lia) Hw) as Hm'.
  pose proof (Z.div_pos idx w ltac:(lia) Hw) as Hd.
  pose proof (Z.div_le_upper_bound idx w idx Hw ltac:(nia)) as Hd'.
  assert (Hlt : idx / w < h) by (apply Z.div_lt_upper_bound; lia).
  assert (Hin : GridMap.out_of_bounds map (idx mod w) (idx / w) = false).
  { apply out_of_bounds_spec; unfold INT_MAX in *; fold w h; lia. }
  split.
  - rewrite getGridMapCoords_idx_nonneg by (fold w; lia).
    fold w. rewrite Hin. reflexivity.
  - unfold GridMap.getGridMapIndex_coords. rewrite Hin. fold w.
    pose proof (Z.div_mod idx w ltac:(lia)) as Hdm.
    unfold INT_MAX in *.
    rewrite (to_uint_small (idx mod w)) by (unfold UINT_MAX; lia).
    rewrite (to_uint_small (idx / w)) by (unfold UINT_MAX; lia).
    rewrite (to_uint_small (idx / w * w)) by (unfold UINT_MAX; nia).
    replace (idx mod w + idx / w * w) with idx by lia.
    rewrite to_uint_small by (unfold UINT_MAX; lia).
    rewrite to_int_small by (unfold INT_MAX; lia).
    reflexivity.
Qed.

Lemma index_coords_roundtrip_witness :
  (0 < width (info unit_map) /\ 0 < height (info unit_map)
   /\ 0 <= 60 < width (info unit_map) * height (info unit_map) /\ 60 <= INT_MAX)
  /\ exists gx gy,
      GridMap.getGridMapCoords_idx unit_map 60 = Some (true, (gx, gy))
      /\ GridMap.getGridMapIndex_coords unit_map gx gy 0 = (true, 60).
Proof.
  split; [vm_compute; intuition discriminate|].
  apply (index_coords_roundtrip unit_map 60 0); vm_compute; intuition discriminate.
Defined.

(** C9: on a grid of positive width the index decoder reports failure
    exactly when the coordinates it derived lie outside
    [[0, width) x [0, height)]; the index is not tested itself, a
    non-negative one being decoded as [idx mod width] and [idx / width];
    and one past the end, [idx = width * height], is reported as a
    failure on every grid that has cells. *)
Theorem index_decode_fails_iff (map : OccupancyGrid) (idx : Z) :
  0 < width (info map) ->
  let w := width (info map) in
  let h := height (info map) in
  let gx := to_int (to_uint idx mod w) in
  let gy := to_int (to_uint idx / w) in
  (GridMap.getGridMapCoords_idx map idx = Some (false, (gx, gy))
   <-> ~ (0 <= gx < w /\ 0 <= gy < h))
  /\ (GridMap.getGridMapCoords_idx map idx = Some (true, (gx, gy))
      <-> (0 <= gx < w /\ 0 <= gy < h))
  /\ (0 <= idx <= INT_MAX -> gx = idx mod w /\ gy = idx / w)
  /\ (0 < h -> w * h <= INT_MAX ->
      GridMap.getGridMapCoords_idx map (w * h) = Some (false, (0, h))).
Proof.
  intros Hw w h gx gy.
  assert (Hspec : GridMap.out_of_bounds map gx gy = false
                  <-> (0 <= gx < w /\ 0 <= gy < h)).
  { apply out_of_bounds_spec; apply to_int_range. }
  assert (Hdef : GridMap.getGridMapCoords_idx map idx
                 = Some (negb (GridMap.out_of_bounds map gx gy), (gx, gy))).
  { unfold GridMap.getGridMapCoords_idx. fold w.
    destruct (Z.eqb_spec w 0); [lia | reflexivity]. }
  repeat split.
  - rewrite Hdef. intros E Hin. apply Hspec in Hin. rewrite Hin in E. discriminate.
  - intros Hout. rewrite Hdef.
    destruct (GridMap.out_of_bounds map gx gy); [reflexivity|].
    exfalso. apply Hout, Hspec. reflexivity.
  - rewrite Hdef in H.
    destruct (GridMap.out_of_bounds map gx gy); [discriminate|].
    apply (proj1 Hspec eq_refl).
  - rewrite Hdef in H.
    destruct (GridMap.out_of_bounds map gx gy); [discriminate|].
    apply (proj1 Hspec eq_refl).
  - rewrite Hdef in H.
    destruct (GridMap.out_of_bounds map gx gy); [discriminate|].
    apply (proj1 Hspec eq_refl).
  - rewrite Hdef in H.
    destruct (GridMap.out_of_bounds map gx gy); [discriminate|].
    apply (proj1 Hspec eq_refl).
  - intros Hin. apply Hspec in Hin. rewrite Hdef, Hin. reflexivity.
  - pose proof (getGridMapCoords_idx_nonneg map idx Hw H) as E.
    rewrite Hdef in E. injection E as _ E1 E2. exact E1.
  - pose proof (getGridMapCoords_idx_nonneg map idx Hw H) as E.
    rewrite Hdef in E. injection E as _ E1 E2. exact E2.
  - intros Hh Hfit.
    rewrite getGridMapCoords_idx_nonneg by (fold w h; nia). fold w h.
    rewrite Z.mul_comm, Z.mod_mul, Z.div_mul by lia.
    assert (E : GridMap.out_of_bounds map 0 h = true).
    { destruct (GridMap.out_of_bounds map 0 h) eqn:E; [reflexivity|].
      apply out_of_bounds_spec in E; unfold INT_MAX in *; fold w h in E |- *; nia. }
    rewrite E. reflexivity.
Qed.

(** On the grid of 11 by 11 cells: one past the end fails, the last index
    decodes to (10, 10), and -1, read as 4294967295, fails on its row. *)
Lemma index_decode_fails_iff_witness :
  0 < width (info unit_map)
  /\ GridMap.getGridMapCoords_idx unit_map 121 = Some (false, (0, 11))
  /\ GridMap.getGridMapCoords_idx unit_map 120 = Some (true, (10, 10))
  /\ GridMap.getGridMapCoords_idx unit_map (-1) = Some (false, (3, 390451572)).
Proof.
  split; [reflexivity|].
  pose proof (index_decode_fails_iff unit_map 121 eq_refl) as H121.
  pose proof (index_decode_fails_iff unit_map 120 eq_refl) as H120.
  pose proof (index_decode_fails_iff unit_map (-1) eq_refl) as Hneg.
  cbv zeta in H121, H120, Hneg.
  destruct H121 as (_ & _ & _ & Hend).
  destruct H120 as (_ & Hin & _).
  destruct Hneg as (Hout & _).
  split; [apply Hend; vm_compute; congruence|].
  split; [apply (proj2 Hin); vm_compute; intuition congruence|].
  apply (proj2 Hout). vm_compute. intros [_ [_ H]]. discriminate H.
Defined.

(** ** Rounding *)

Lemma Qlt_bool_iff (a b : Q) : Qlt_bool a b = true <-> (a < b)%Q.
Proof.
  unfold Qlt_bool. rewrite negb_true_iff.
  destruct (Qle_bool b a) eqn:E.
  - apply Qle_bool_iff in E. split; [discriminate|].
    intros H. exfalso. apply (Qlt_not_le _ _ H E).
  - split; [intros _|reflexivity].
    apply Qnot_le_lt. intros H. apply Qle_bool_iff in H. congruence.
Qed.

Lemma Qlt_bool_false_iff (a b : Q) : Qlt_bool a b = false <-> (b <= a)%Q.
Proof.
  unfold Qlt_bool. rewrite negb_false_iff. apply Qle_bool_iff.
Qed.

Lemma round_comp (p q : Q) : (p == q)%Q -> round p = round q.
Proof.
  intros E. unfold round.
  assert (Hb : Qle_bool 0 p = Qle_bool 0 q).
  { destruct (Qle_bool 0 p) eqn:Ep, (Qle_bool 0 q) eqn:Eq; try reflexivity.
    - apply Qle_bool_iff in Ep. rewrite E in Ep. apply Qle_bool_iff in Ep. congruence.
    - apply Qle_bool_iff in Eq. rewrite <- E in Eq. apply Qle_bool_iff in Eq. congruence. }
  rewrite Hb. destruct (Qle_bool 0 q).
  - apply Qfloor_comp. rewrite E. reflexivity.
  - apply Qceiling_comp. rewrite E. reflexivity.
Qed.

Lemma Qfloor_lt_Z (q : Q) (m : Z) : (q < inject_Z m)%Q -> Qfloor q < m.
Proof.
  intros H. rewrite Zlt_Qlt.
  apply Qle_lt_trans with q; [apply Qfloor_le | exact H].
Qed.

Lemma Qfloor_ge_Z (q : Q) (m : Z) : (inject_Z m <= q)%Q -> m <= Qfloor q.
Proof.
  intros H. rewrite <- (Qfloor_Z m). apply Qfloor_resp_le, H.
Qed.

Lemma Qceiling_le_Z (q : Q) (m : Z) : (q <= inject_Z m)%Q -> Qceiling q <= m.
Proof.
  intros H. rewrite <- (Qceiling_Z m). apply Qceiling_resp_le, H.
Qed.

Lemma Qceiling_gt_Z (q : Q) (m : Z) : (inject_Z m < q)%Q -> m < Qceiling q.
Proof.
  intros H. rewrite Zlt_Qlt.
  apply Qlt_le_trans with q; [exact H | apply Qle_ceiling].
Qed.

Lemma Qfloor_shift (p : Q) (j : Z) : Qfloor (p + inject_Z j) = Qfloor p + j.
Proof.
  destruct p as [n d]. unfold Qfloor, Qplus, inject_Z. cbn.
  rewrite Pos.mul_1_r, Z.mul_1_r, Z.div_add by lia. reflexivity.
Qed.

Lemma Qceiling_shift (p : Q) (j : Z) : Qceiling (p + inject_Z j) = Qceiling p + j.
Proof.
  unfold Qceiling.
  assert (E : (- (p + inject_Z j) == - p + inject_Z (- j))%Q)
    by (rewrite inject_Z_opp; ring).
  rewrite (Qfloor_comp _ _ E), Qfloor_shift. lia.
Qed.

Lemma Qfloor_add_half (n : Z) : Qfloor (inject_Z n + (1 # 2)) = n.
Proof.
  assert (L : (n <= Qfloor (inject_Z n + (1 # 2)))%Z).
  { rewrite <- (Qfloor_Z n) at 1. apply Qfloor_resp_le.
    rewrite <- (Qplus_0_r (inject_Z n)) at 1.
    apply Qplus_le_r. discriminate. }
  assert (U : (Qfloor (inject_Z n + (1 # 2)) < n + 1)%Z).
  { apply Qfloor_lt_Z. rewrite inject_Z_plus.
    apply Qplus_lt_r. reflexivity. }
  lia.
Qed.

Lemma Qceiling_sub_half (n : Z) : Qceiling (inject_Z n - (1 # 2)) = n.
Proof.
  unfold Qceiling.
  assert (E : (- (inject_Z n - (1 # 2)) == inject_Z (- n) + (1 # 2))%Q).
  { rewrite inject_Z_opp. ring. }
  rewrite (Qfloor_comp _ _ E), Qfloor_add_half. lia.
Qed.

Lemma round_inject_Z (n : Z) : round (inject_Z n) = n.
Proof.
  unfold round. destruct (Qle_bool 0 (inject_Z n)).
  - apply Qfloor_add_half.
  - apply Qceiling_sub_half.
Qed.

(** ** World and grid coordinates *)

Lemma cell_offset (n : Z) (res o : Q) :
  ~ (res == 0)%Q -> round ((inject_Z n * res + o - o) / res) = n.
Proof.
  intros Hres. rewrite <- (round_inject_Z n) at 2.
  apply round_comp. field. exact Hres.
Qed.

(** C8: on a geometry whose resolution is not zero, the world point of a
    grid coordinate pair inside [[0, width) x [0, height)] converts back
    to that very pair, and the conversion reports success. *)
Theorem world_coords_roundtrip (map : OccupancyGrid) (gx gy : Z) :
  ~ (resolution (info map) == 0)%Q ->
  0 <= gx < width (info map) -> 0 <= gy < height (info map) ->
  gx <= INT_MAX -> gy <= INT_MAX ->
  exists wx wy,
    GridMap.getGridMapWorldCoords_coords map gx gy = (true, (wx, wy))
    /\ GridMap.getGridMapCoords_world map wx wy = (true, (gx, gy)).
Proof.
  intros Hres Hx Hy Hxi Hyi.
  eexists _, _. split; [reflexivity|].
  unfold GridMap.getGridMapCoords_world.
  rewrite !cell_offset by exact Hres.
  unfold INT_MAX in *.
  rewrite !to_int_small by (unfold INT_MAX; lia).
  assert (E : GridMap.out_of_bounds map gx gy = false).
  { apply out_of_bounds_spec; unfold INT_MAX; lia. }
  rewrite E. reflexivity.
Qed.

Lemma world_coords_roundtrip_witness :
  (~ (resolution (info unit_map) == 0)%Q
   /\ 0 <= 3 < width (info unit_map) /\ 0 <= 10 < height (info unit_map)
   /\ 3 <= INT_MAX /\ 10 <= INT_MAX)
  /\ exists wx wy,
      GridMap.getGridMapWorldCoords_coords unit_map 3 10 = (true, (wx, wy))
      /\ GridMap.getGridMapCoords_world unit_map wx wy = (true, (3, 10)).
Proof.
  split; [vm_compute; intuition discriminate|].
  apply (world_coords_roundtrip unit_map 3 10); vm_compute; intuition discriminate.
Defined.

(** ** Rounding to a multiple of a step *)

Lemma pceil_ge (v s : Q) : (0 < s)%Q -> (v <= pceil v s)%Q.
Proof.
  intros Hs. unfold pceil, ceil.
  assert (E : (v == v / s * s)%Q) by (field; intros C; rewrite C in Hs; discriminate).
  rewrite E at 1. apply Qmult_le_compat_r; [apply Qle_ceiling | apply Qlt_le_weak, Hs].
Qed.

Lemma pfloor_le (v s : Q) : (0 < s)%Q -> (pfloor v s <= v)%Q.
Proof.
  intros Hs. unfold pfloor, floor.
  assert (E : (v == v / s * s)%Q) by (field; intros C; rewrite C in Hs; discriminate).
  rewrite E at 2. apply Qmult_le_compat_r; [apply Qfloor_le | apply Qlt_le_weak, Hs].
Qed.

Lemma pceil_lt (v s : Q) : (0 < s)%Q -> (pceil v s < v + s)%Q.
Proof.
  intros Hs. unfold pceil, ceil.
  assert (E : (v + s == (v / s + 1) * s)%Q) by (field; intros C; rewrite C in Hs; discriminate).
  rewrite E. apply Qmult_lt_compat_r; [exact Hs|].
  pose proof (Qceiling_lt (v / s)) as H.
  unfold Z.sub in H. rewrite inject_Z_plus in H.
  change (inject_Z (- (1))) with (- (1))%Q in H.
  lra.
Qed.

Lemma pceil_multiple (v s : Q) : exists k : Z, pceil v s = (inject_Z k * s)%Q.
Proof. exists (ceil (v / s)). reflexivity. Qed.


Lemma std_max_l (a b : Q) : (a <= std_max a b)%Q.
Proof.
  unfold std_max. destruct (Qlt_bool a b) eqn:E.
  - apply Qlt_le_weak, Qlt_bool_iff, E.
  - apply Qle_refl.
Qed.

Lemma std_max_r (a b : Q) : (b <= std_max a b)%Q.
Proof.
  unfold std_max. destruct (Qlt_bool a b) eqn:E.
  - apply Qle_refl.
  - apply Qlt_bool_false_iff, E.
Qed.

Lemma std_max_cases (a b : Q) : std_max a b = a \/ std_max a b = b.
Proof. unfold std_max. destruct (Qlt_bool a b); auto. Qed.



(** ** Resizing *)

Example unit_square_built :
  GridMap.resize (GridMap.create "map" (1 # 10) (2 # 10)) (vec 0 0 0) (vec 1 1 0)
  = Some unit_square.
Proof. vm_compute. reflexivity. Qed.

Lemma covers_iff (g : GridMap.t) (rmin rmax : Vector3) :
  GridMap.covers g rmin rmax = true
  <-> (x (GridMap.min g) <= x rmin /\ y (GridMap.min g) <= y rmin
       /\ x rmax <= x (GridMap.max g) /\ y rmax <= y (GridMap.max g))%Q.
Proof.
  unfold GridMap.covers. rewrite !andb_true_iff, !Qle_bool_iff. tauto.
Qed.

(** C6: when the bounds already hold the requested box in x and y,
    [resize] returns the grid map as it was (geometry, bounds and cells),
    so a second call with the same box finds the state of the first. *)
Theorem resize_covered_noop (g : GridMap.t) (rmin rmax : Vector3) :
  (x (GridMap.min g) <= x rmin)%Q -> (y (GridMap.min g) <= y rmin)%Q ->
  (x rmax <= x (GridMap.max g))%Q -> (y rmax <= y (GridMap.max g))%Q ->
  GridMap.resize g rmin rmax = Some g
  /\ match GridMap.resize g rmin rmax with
     | Some g1 => GridMap.resize g1 rmin rmax = Some g
     | None => False
     end.
Proof.
  intros H1 H2 H3 H4.
  assert (E : GridMap.resize g rmin rmax = Some g).
  { unfold GridMap.resize.
    rewrite (proj2 (covers_iff g rmin rmax)) by tauto. reflexivity. }
  rewrite E. split; [reflexivity | exact E].
Qed.

Lemma resize_covered_noop_witness :
  ((x (GridMap.min unit_square) <= 1 # 2)%Q /\ (y (GridMap.min unit_square) <= 1 # 2)%Q
   /\ (1 <= x (GridMap.max unit_square))%Q /\ (1 <= y (GridMap.max unit_square))%Q)
  /\ GridMap.resize unit_square (vec (1 # 2) (1 # 2) 0) (vec 1 1 0) = Some unit_square
  /\ match GridMap.resize unit_square (vec (1 # 2) (1 # 2) 0) (vec 1 1 0) with
     | Some g1 => GridMap.resize g1 (vec (1 # 2) (1 # 2) 0) (vec 1 1 0) = Some unit_square
     | None => False
     end.
Proof.
  split; [repeat split; vm_compute; discriminate|].
  apply (resize_covered_noop unit_square (vec (1 # 2) (1 # 2) 0) (vec 1 1 0));
    vm_compute; discriminate.
Defined.

(** What a call that passes the opening test leaves in the bounds. *)
Lemma resize_bounds (g g' : GridMap.t) (rmin rmax : Vector3) :
  GridMap.covers g rmin rmax = false ->
  GridMap.resize g rmin rmax = Some g' ->
  GridMap.min g' = fst (GridMap.grown_bounds g rmin rmax)
  /\ GridMap.max g' = snd (GridMap.grown_bounds g rmin rmax)
  /\ GridMap.min_expansion_size g' = GridMap.min_expansion_size g.
Proof.
  intros Hc. unfold GridMap.resize. rewrite Hc.
  destruct (GridMap.grown_bounds g rmin rmax) as [mn mx].
  destruct (GridMap.copy_rows _ _ _ _ _ _ _); [|discriminate].
  intros E. injection E as <-. auto.
Qed.

(** With a positive resolution the new bounds hold the requested box. *)
Lemma grown_bounds_cover (g : GridMap.t) (rmin rmax : Vector3) :
  (0 < resolution (info (GridMap.grid_map g)))%Q ->
  let '(mn, mx) := GridMap.grown_bounds g rmin rmax in
  (x mn <= x rmin /\ y mn <= y rmin /\ x rmax <= x mx /\ y rmax <= y mx)%Q.
Proof.
  intros Hres. unfold GridMap.grown_bounds.
  set (res := resolution (info (GridMap.grid_map g))) in *.
  set (mes := GridMap.min_expansion_size g).
  destruct (GridMap.empty g); cbn [x y z].
  - repeat split; [apply pfloor_le | apply pfloor_le | apply pceil_ge | apply pceil_ge];
      exact Hres.
  - repeat split.
    + destruct (Qlt_bool (x rmin) (x (GridMap.min g))) eqn:E.
      * pose proof (std_max_l (pceil (x (GridMap.min g) - x rmin) res) mes).
        pose proof (pceil_ge (x (GridMap.min g) - x rmin) res Hres). lra.
      * apply Qlt_bool_false_iff, E.
    + destruct (Qlt_bool (y rmin) (y (GridMap.min g))) eqn:E.
      * pose proof (std_max_l (pceil (y (GridMap.min g) - y rmin) res) mes).
        pose proof (pceil_ge (y (GridMap.min g) - y rmin) res Hres). lra.
      * apply Qlt_bool_false_iff, E.
    + destruct (Qlt_bool (x (GridMap.max g)) (x rmax)) eqn:E.
      * pose proof (std_max_l (pceil (x rmax - x (GridMap.max g)) res) mes).
        pose proof (pceil_ge (x rmax - x (GridMap.max g)) res Hres). lra.
      * apply Qlt_bool_false_iff, E.
    + destruct (Qlt_bool (y (GridMap.max g)) (y rmax)) eqn:E.
      * pose proof (std_max_l (pceil (y rmax - y (GridMap.max g)) res) mes).
        pose proof (pceil_ge (y rmax - y (GridMap.max g)) res Hres). lra.
      * apply Qlt_bool_false_iff, E.
Qed.

(** Hence, at a positive resolution, a second [resize] with any box
    returns what the first one produced. *)
Lemma resize_idempotent (g g' : GridMap.t) (rmin rmax : Vector3) :
  (0 < resolution (info (GridMap.grid_map g)))%Q ->
  GridMap.resize g rmin rmax = Some g' ->
  GridMap.resize g' rmin rmax = Some g'.
Proof.
  intros Hres E.
  destruct (GridMap.covers g rmin rmax) eqn:Hc.
  - unfold GridMap.resize in E. rewrite Hc in E. injection E as <-.
    unfold GridMap.resize. rewrite Hc. reflexivity.
  - destruct (resize_bounds g g' rmin rmax Hc E) as (Hmn & Hmx & _).
    pose proof (grown_bounds_cover g rmin rmax Hres) as Hcov.
    destruct (GridMap.grown_bounds g rmin rmax) as [mn mx]. cbn in Hmn, Hmx.
    unfold GridMap.resize.
    rewrite (proj2 (covers_iff g' rmin rmax)) by (rewrite Hmn, Hmx; exact Hcov).
    reflexivity.
Qed.

(** *** The first allocation *)

Lemma copy_rows_nothing (rows : nat) (old_w new_w : Z) (dst : list Z) (i j : Z) :
  old_w = 0 \/ rows = O ->
  GridMap.copy_rows rows old_w new_w [] dst i j = Some dst.
Proof.
  intros [-> | ->]; [|reflexivity].
  revert i j. induction rows as [|k IH]; intros i j; [reflexivity|].
  cbn [GridMap.copy_rows]. unfold memcpy. cbn [Z.leb Z.compare]. apply IH.
Qed.

Lemma dimension_fits (c : Z) : 0 <= c < UINT_MAX -> to_uint (to_uint c + 1) = c + 1.
Proof.
  intros H. unfold UINT_MAX in H.
  rewrite (to_uint_small c) by (unfold UINT_MAX; lia).
  apply to_uint_small. unfold UINT_MAX. lia.
Qed.

(** C4, as the code has it: on a grid map whose buffer is empty and whose
    recorded width times height is zero, a [resize] that gets past the
    opening test takes [pfloor] of the requested minimum and [pceil] of the
    requested maximum as bounds, with no padding, puts the origin at the
    new minimum, sets width and height to the span in cells plus one
    (both spans fitting an unsigned int), and fills the buffer with the
    unknown value. *)
Theorem resize_first_allocation (g : GridMap.t) (rmin rmax : Vector3) :
  GridMap.empty g = true ->
  GridMap.covers g rmin rmax = false ->
  size_invariant (GridMap.grid_map g) ->
  let res := resolution (info (GridMap.grid_map g)) in
  let cols := ceil ((pceil (x rmax) res - pfloor (x rmin) res) / res) in
  let rows := ceil ((pceil (y rmax) res - pfloor (y rmin) res) / res) in
  0 <= cols < UINT_MAX -> 0 <= rows < UINT_MAX ->
  exists g',
    GridMap.resize g rmin rmax = Some g'
    /\ x (GridMap.min g') = pfloor (x rmin) res
    /\ y (GridMap.min g') = pfloor (y rmin) res
    /\ x (GridMap.max g') = pceil (x rmax) res
    /\ y (GridMap.max g') = pceil (y rmax) res
    /\ x (origin (info (GridMap.grid_map g'))) = x (GridMap.min g')
    /\ y (origin (info (GridMap.grid_map g'))) = y (GridMap.min g')
    /\ width (info (GridMap.grid_map g')) = cols + 1
    /\ height (info (GridMap.grid_map g')) = rows + 1
    /\ Z.of_nat (length (data (GridMap.grid_map g'))) = to_uint ((cols + 1) * (rows + 1))
    /\ Forall (fun c => c = int8_min) (data (GridMap.grid_map g')).
Proof.
  intros He Hc Hinv res cols rows Hcols Hrows.
  assert (Hd : data (GridMap.grid_map g) = []).
  { unfold GridMap.empty in He. destruct (data (GridMap.grid_map g)); [reflexivity | discriminate]. }
  unfold size_invariant in Hinv. rewrite Hd in Hinv. cbn in Hinv.
  unfold GridMap.resize. rewrite Hc.
  unfold GridMap.grown_bounds. rewrite He. fold res.
  rewrite Hd.
  rewrite copy_rows_nothing by lia.
  eexists. split; [reflexivity|].
  cbn [GridMap.min GridMap.max GridMap.grid_map GridMap.with_data GridMap.allocate
       info data origin width height x y].
  fold res. fold cols. fold rows.
  rewrite !dimension_fits by assumption.
  repeat split.
  - rewrite repeat_length. apply Z2Nat.id, to_uint_range.
  - apply Forall_forall. intros c Hin. eapply repeat_spec, Hin.
Qed.

(** A first allocation: the box from (-0.375, -0.125) to (0.625, 0.375)
    gives a grid of 6 by 4 cells with its corner at (-0.5, -0.25). *)
Lemma resize_first_allocation_witness :
  GridMap.empty fresh_grid = true
  /\ GridMap.covers fresh_grid (vec (-3 # 8) (-1 # 8) 0) (vec (5 # 8) (3 # 8) 0) = false
  /\ size_invariant (GridMap.grid_map fresh_grid)
  /\ exists g',
      GridMap.resize fresh_grid (vec (-3 # 8) (-1 # 8) 0) (vec (5 # 8) (3 # 8) 0)
      = Some g'
      /\ (x (origin (info (GridMap.grid_map g'))) == - (1 # 2))%Q
      /\ (y (origin (info (GridMap.grid_map g'))) == - (1 # 4))%Q
      /\ (x (GridMap.max g') == 3 # 4)%Q
      /\ (y (GridMap.max g') == 1 # 2)%Q
      /\ width (info (GridMap.grid_map g')) = 6
      /\ height (info (GridMap.grid_map g')) = 4
      /\ data (GridMap.grid_map g') = repeat int8_min 24.
Proof.
  split; [reflexivity|]. split; [reflexivity|]. split; [reflexivity|].
  destruct (resize_first_allocation fresh_grid
              (vec (-3 # 8) (-1 # 8) 0) (vec (5 # 8) (3 # 8) 0)
              eq_refl eq_refl eq_refl)
    as (g' & E & _); [vm_compute; split; congruence | vm_compute; split; congruence |].
  exists g'. split; [exact E|].
  vm_compute in E. injection E as <-.
  repeat split.
Defined.

(** C4, as stated, fails on the box that an empty cloud is bounded by:
    the sentinel bounds of a new grid map hold it, nothing is allocated,
    and the width stays 0 where one more than the span is announced. *)
Lemma resize_first_allocation_counterexample :
  GridMap.empty new_grid = true
  /\ GridMap.resize new_grid GridMap.sentinel_min GridMap.sentinel_max = Some new_grid
  /\ ~ (x (GridMap.max new_grid)
        == pceil (x GridMap.sentinel_max) (resolution (info (GridMap.grid_map new_grid))))%Q
  /\ width (info (GridMap.grid_map new_grid))
     <> ceil ((x (GridMap.max new_grid) - x (GridMap.min new_grid))
              / resolution (info (GridMap.grid_map new_grid))) + 1
  /\ data (GridMap.grid_map new_grid) = [].
Proof.
  split; [reflexivity|]. split; [vm_compute; reflexivity|].
  split; [vm_compute; discriminate|]. split; [vm_compute; discriminate | reflexivity].
Qed.

(** ** Construction and reset *)

Lemma create_min_expansion_size (frame : string) (res e : Q) :
  GridMap.min_expansion_size (GridMap.create frame res e) = pceil e res.
Proof. reflexivity. Qed.

(** The expansion size that [create] stores is a multiple of the
    resolution it was passed, a [double]; the message holds that
    resolution only if single precision has it. *)
Lemma create_aligned (frame : string) (res e : Q) :
  (0 < res)%Q ->
  let mes := GridMap.min_expansion_size (GridMap.create frame res e) in
  (exists k : Z, mes = (inject_Z k * res)%Q) /\ (e <= mes)%Q /\ (mes < e + res)%Q.
Proof.
  intros Hres. cbn. split; [apply pceil_multiple|].
  split; [apply pceil_ge | apply pceil_lt]; exact Hres.
Qed.

(** C5 at a message of resolution 1 loaded with a minimum expansion size
    of 1: [create] stores the argument rounded up against its resolution;
    [loadFrom] rounds against the resolution of the message it has just
    allocated, so that it stores the same value whatever message it is
    given, and here does not store 1, the multiple of the loaded
    resolution. *)
Theorem loadFrom_min_expansion_size :
  (forall frame res e,
      GridMap.min_expansion_size (GridMap.create frame res e) = pceil e res)
  /\ (forall map e,
         GridMap.min_expansion_size (GridMap.loadFrom map e)
         = pceil e (resolution (info new_OccupancyGrid)))
  /\ (forall map map' e,
         GridMap.min_expansion_size (GridMap.loadFrom map e)
         = GridMap.min_expansion_size (GridMap.loadFrom map' e))
  /\ resolution (info (GridMap.grid_map loaded_cell)) = 1%Q
  /\ (pceil 1 (resolution (info (GridMap.grid_map loaded_cell))) == 1)%Q
  /\ ~ (GridMap.min_expansion_size loaded_cell
        == pceil 1 (resolution (info (GridMap.grid_map loaded_cell))))%Q.
Proof.
  split; [reflexivity|]. split; [reflexivity|]. split; [reflexivity|].
  split; [reflexivity|]. split; [reflexivity|]. vm_compute. discriminate.
Qed.

Lemma create_size_invariant (frame : string) (res e : Q) :
  size_invariant (GridMap.grid_map (GridMap.create frame res e)).
Proof. reflexivity. Qed.

Lemma loadFrom_size_invariant (map : OccupancyGrid) (e : Q) :
  size_invariant map -> size_invariant (GridMap.grid_map (GridMap.loadFrom map e)).
Proof. intros H. exact H. Qed.

Lemma copy_rows_length (rows : nat) (old_w new_w : Z) (src dst d : list Z) (i j : Z) :
  GridMap.copy_rows rows old_w new_w src dst i j = Some d -> length d = length dst.
Proof.
  revert dst i j. induction rows as [|k IH]; intros dst i j; cbn [GridMap.copy_rows].
  - intros E. injection E as <-. reflexivity.
  - unfold memcpy. destruct (old_w <=? 0) eqn:E0; [apply IH|].
    destruct (_ && _) eqn:Eb; [|discriminate].
    intros E. apply IH in E. rewrite E.
    apply andb_prop in Eb as [Eb Hs2]. apply andb_prop in Eb as [Eb Hs1].
    apply andb_prop in Eb as [Hd1 Hd2].
    apply Z.leb_le in Hd1, Hd2, Hs1, Hs2. apply Z.leb_gt in E0.
    rewrite !length_app, !length_firstn, !length_skipn. lia.
Qed.

(** [resize] allocates as many cells as the 32-bit product of the new
    width and height. *)
Lemma resize_size (g g' : GridMap.t) (rmin rmax : Vector3) :
  GridMap.covers g rmin rmax = false ->
  GridMap.resize g rmin rmax = Some g' ->
  Z.of_nat (length (data (GridMap.grid_map g')))
  = to_uint (width (info (GridMap.grid_map g')) * height (info (GridMap.grid_map g'))).
Proof.
  intros Hc. unfold GridMap.resize. rewrite Hc.
  destruct (GridMap.grown_bounds g rmin rmax) as [mn mx].
  destruct (GridMap.copy_rows _ _ _ _ _ _ _) as [d|] eqn:E; [|discriminate].
  intros E'. injection E' as <-. apply copy_rows_length in E.
  cbn [GridMap.grid_map GridMap.with_data data info] in *.
  rewrite E. cbn [GridMap.allocate data info width height].
  rewrite repeat_length. apply Z2Nat.id, to_uint_range.
Qed.

(** C2 at [unit_square], a grid of 11 by 11 cells: the relation between
    width, height and buffer holds before [clear] and is broken by it,
    the buffer being emptied while width and height stay, on this and on
    every grid map that has cells; the next [resize] then copies 11 rows
    of 11 cells out of the empty buffer. *)
Theorem clear_breaks_size_invariant :
  size_invariant (GridMap.grid_map unit_square)
  /\ width (info (GridMap.grid_map (GridMap.clear unit_square))) = 11
  /\ height (info (GridMap.grid_map (GridMap.clear unit_square))) = 11
  /\ data (GridMap.grid_map (GridMap.clear unit_square)) = []
  /\ ~ size_invariant (GridMap.grid_map (GridMap.clear unit_square))
  /\ (forall g, size_invariant (GridMap.grid_map g) -> GridMap.empty g = false ->
                ~ size_invariant (GridMap.grid_map (GridMap.clear g)))
  /\ GridMap.resize (GridMap.clear unit_square) (vec 0 0 0) (vec 1 1 0) = None.
Proof.
  split; [reflexivity|]. split; [reflexivity|]. split; [reflexivity|].
  split; [reflexivity|]. split; [unfold size_invariant; cbn; discriminate|].
  split; [|vm_compute; reflexivity].
  intros g Hinv He. unfold size_invariant in *.
  cbn [GridMap.clear GridMap.grid_map GridMap.with_seq GridMap.with_data info data length].
  rewrite Hinv. unfold GridMap.empty in He.
  destruct (data (GridMap.grid_map g)); [discriminate | cbn; lia].
Qed.

(** ** Resizing a loaded grid map *)

(** C1 at [loaded_cell] asked to hold the box from (0.5, 0.5) to (1, 1):
    the cell of value 7 is read at the world point (10.5, 10.5) before the
    call; the call returns a grid of 2 by 2 cells in which that point has
    no cell, and the 7 sits in the cell of the world point (0.5, 0.5). *)
Theorem resize_loaded_misplaces_cell :
  GridMap.getGridMapIndex_world (GridMap.grid_map loaded_cell) (21 # 2) (21 # 2) 0
  = (true, 0)
  /\ GridMap.at_ loaded_cell 0 = Some 7
  /\ exists g',
      GridMap.resize loaded_cell (vec (1 # 2) (1 # 2) 0) (vec 1 1 0) = Some g'
      /\ width (info (GridMap.grid_map g')) = 2
      /\ height (info (GridMap.grid_map g')) = 2
      /\ GridMap.getGridMapIndex_world (GridMap.grid_map g') (21 # 2) (21 # 2) 0 = (false, 0)
      /\ GridMap.getGridMapIndex_world (GridMap.grid_map g') (1 # 2) (1 # 2) 0 = (true, 0)
      /\ data (GridMap.grid_map g') = [7; int8_min; int8_min; int8_min].
Proof.
  split; [reflexivity|]. split; [reflexivity|].
  destruct (GridMap.resize loaded_cell (vec (1 # 2) (1 # 2) 0) (vec 1 1 0))
    as [g'|] eqn:E; vm_compute in E; [|discriminate].
  injection E as <-. eexists. split; [reflexivity|].
  repeat split.
Qed.

(** A loaded grid of 3 by 3 cells asked to hold the same box gets a grid
    of 2 by 2 cells, and the second row copied runs past its buffer. *)
Example resize_loaded_overruns :
  GridMap.resize (GridMap.loadFrom nine_cell_msg 1) (vec (1 # 2) (1 # 2) 0) (vec 1 1 0)
  = None.
Proof. vm_compute. reflexivity. Qed.

(** C10 at the same call: the buffer is filled, the bounds do not hold
    the box, and in the grid of 2 by 2 cells that [resize] allocates the
    old origin (10.5, 10.5) converts to the coordinates (10, 10), which
    the range test rejects, so the index stays at 0. *)
Theorem resize_loaded_origin_rejected :
  let g := loaded_cell in
  let rmin := vec (1 # 2) (1 # 2) 0 in
  let rmax := vec 1 1 0 in
  let new := GridMap.allocate (GridMap.grid_map g)
               (fst (GridMap.grown_bounds g rmin rmax))
               (snd (GridMap.grown_bounds g rmin rmax)) in
  let old_origin := origin (info (GridMap.grid_map g)) in
  GridMap.empty g = false
  /\ GridMap.covers g rmin rmax = false
  /\ width (info new) = 2 /\ height (info new) = 2
  /\ GridMap.getGridMapCoords_world new (x old_origin) (y old_origin) = (false, (10, 10))
  /\ GridMap.getGridMapIndex_world new (x old_origin) (y old_origin) 0 = (false, 0).
Proof.
  cbv zeta. repeat split.
Qed.

(** ** Resizing a grid map that [resize] has allocated *)

Lemma Qpos_neq0 (q : Q) : (0 < q)%Q -> ~ (q == 0)%Q.
Proof. intros H E. rewrite E in H. discriminate. Qed.

Lemma inject_Z_pos_steps (j : Z) (res : Q) :
  (0 < res)%Q -> (0 < inject_Z j * res)%Q -> 0 < j.
Proof.
  intros Hres H. destruct (Z_lt_le_dec 0 j) as [|Hle]; [assumption|exfalso].
  assert (inject_Z j <= 0)%Q by (rewrite Zle_Qle in Hle; exact Hle).
  assert (inject_Z j * res <= 0 * res)%Q
    by (apply Qmult_le_compat_r; [assumption | apply Qlt_le_weak, Hres]).
  lra.
Qed.

(** A growing edge moves by a positive whole number of cells. *)
Lemma growth_steps (res mes d : Q) :
  (0 < res)%Q -> aligned res mes -> (0 < d)%Q ->
  exists j : Z, 0 < j /\ (std_max (pceil d res) mes == inject_Z j * res)%Q.
Proof.
  intros Hres [k Hk] Hd.
  assert (Hpos : (0 < std_max (pceil d res) mes)%Q).
  { pose proof (std_max_l (pceil d res) mes). pose proof (pceil_ge d res Hres). lra. }
  destruct (std_max_cases (pceil d res) mes) as [E|E]; rewrite E in *.
  - exists (ceil (d / res)). split; [|reflexivity].
    apply (inject_Z_pos_steps _ res Hres). exact Hpos.
  - exists k. split; [|exact Hk].
    apply (inject_Z_pos_steps _ res Hres). rewrite <- Hk. exact Hpos.
Qed.

Lemma lower_edge_steps (res mes lo r : Q) :
  (0 < res)%Q -> aligned res mes ->
  exists j : Z,
    0 <= j
    /\ ((if Qlt_bool r lo then lo - std_max (pceil (lo - r) res) mes else lo)
        == lo - inject_Z j * res)%Q.
Proof.
  intros Hres Hmes. destruct (Qlt_bool r lo) eqn:E.
  - apply Qlt_bool_iff in E.
    destruct (growth_steps res mes (lo - r) Hres Hmes ltac:(lra)) as (j & Hj & Ej).
    exists j. split; [lia|]. rewrite Ej. reflexivity.
  - exists 0. split; [lia|]. change (inject_Z 0) with 0%Q. ring.
Qed.

Lemma upper_edge_steps (res mes hi r : Q) :
  (0 < res)%Q -> aligned res mes ->
  exists j : Z,
    0 <= j
    /\ ((if Qlt_bool hi r then hi + std_max (pceil (r - hi) res) mes else hi)
        == hi + inject_Z j * res)%Q.
Proof.
  intros Hres Hmes. destruct (Qlt_bool hi r) eqn:E.
  - apply Qlt_bool_iff in E.
    destruct (growth_steps res mes (r - hi) Hres Hmes ltac:(lra)) as (j & Hj & Ej).
    exists j. split; [lia|]. rewrite Ej. reflexivity.
  - exists 0. split; [lia|]. change (inject_Z 0) with 0%Q. ring.
Qed.

(** The span between two edges that are whole cells apart. *)
Lemma span_cells (res lo hi : Q) (n : Z) :
  (0 < res)%Q -> (hi == lo + inject_Z n * res)%Q -> ceil ((hi - lo) / res) = n.
Proof.
  intros Hres E. unfold ceil. rewrite <- (Qceiling_Z n).
  apply Qceiling_comp. rewrite E. field. apply Qpos_neq0, Hres.
Qed.

(** [round] commutes with a shift by whole cells to the right of a point
    that rounds to a cell of the grid. *)
Lemma round_shift (q : Q) (j : Z) :
  0 <= round q -> 0 <= j -> round (q + inject_Z j) = round q + j.
Proof.
  intros Hq Hj. unfold round in *.
  pose proof (fun p => Qfloor_shift p j) as Hfl.
  assert (Hjq : (0 <= inject_Z j)%Q) by (rewrite Zle_Qle in Hj; exact Hj).
  destruct (Qle_bool 0 q) eqn:E0.
  - apply Qle_bool_iff in E0.
    assert (E1 : Qle_bool 0 (q + inject_Z j) = true) by (apply Qle_bool_iff; lra).
    rewrite E1. rewrite <- Hfl. apply Qfloor_comp. ring.
  - assert (Hneg : (q < 0)%Q).
    { apply Qnot_le_lt. intros H. apply Qle_bool_iff in H. congruence. }
    assert (Hc : Qceiling (q - (1 # 2)) = 0).
    { assert (Qceiling (q - (1 # 2)) <= 0) by (apply Qceiling_le_Z; change (inject_Z 0) with 0%Q; lra).
      lia. }
    assert (Hgt : (- (1 # 2) < q)%Q).
    { pose proof (Qceiling_lt (q - (1 # 2))) as H. rewrite Hc in H.
      change (inject_Z (0 - 1)) with (- (1))%Q in H. lra. }
    rewrite Hc. destruct (Qle_bool 0 (q + inject_Z j)) eqn:E1.
    + assert (E : (q + inject_Z j + (1 # 2) == (q + (1 # 2)) + inject_Z j)%Q) by ring.
      rewrite (Qfloor_comp _ _ E), Hfl.
      assert (Qfloor (q + (1 # 2)) = 0).
      { assert (0 <= Qfloor (q + (1 # 2))) by (apply Qfloor_ge_Z; change (inject_Z 0) with 0%Q; lra).
        assert (Qfloor (q + (1 # 2)) < 1) by (apply Qfloor_lt_Z; change (inject_Z 1) with 1%Q; lra).
        lia. }
      lia.
    + assert (Hneg' : (q + inject_Z j < 0)%Q).
      { apply Qnot_le_lt. intros H. apply Qle_bool_iff in H. congruence. }
      assert (j = 0).
      { destruct (Z.eq_dec j 0) as [|Hne]; [assumption|exfalso].
        assert (Hj1 : 1 <= j) by lia. rewrite Zle_Qle in Hj1.
        change (inject_Z 1) with 1%Q in Hj1. lra. }
      subst j. change (inject_Z 0) with 0%Q.
      assert (E : (q + 0 - (1 # 2) == q - (1 # 2))%Q) by ring.
      rewrite (Qceiling_comp _ _ E), Hc. reflexivity.
Qed.

(** [memcpy] inside both buffers: the copied range reads as the source,
    the rest of the destination is untouched. *)
Lemma memcpy_spec (dst src : list Z) (d s n : Z) :
  0 < n -> 0 <= d -> d + n <= Z.of_nat (length dst) ->
  0 <= s -> s + n <= Z.of_nat (length src) ->
  exists dst',
    memcpy dst d src s n = Some dst'
    /\ length dst' = length dst
    /\ (forall c, 0 <= c < n -> cell dst' (d + c) = cell src (s + c))
    /\ (forall i, i < d \/ d + n <= i -> cell dst' i = cell dst i).
Proof.
  intros Hn Hd Hdn Hs Hsn. unfold memcpy.
  destruct (Z.leb_spec n 0) as [|_]; [lia|].
  destruct (Z.leb_spec 0 d), (Z.leb_spec (d + n) (Z.of_nat (length dst))),
    (Z.leb_spec 0 s), (Z.leb_spec (s + n) (Z.of_nat (length src))); try lia.
  cbn [andb]. eexists. split; [reflexivity|].
  assert (L1 : length (firstn (Z.to_nat d) dst) = Z.to_nat d)
    by (rewrite length_firstn; lia).
  assert (L2 : length (firstn (Z.to_nat n) (skipn (Z.to_nat s) src)) = Z.to_nat n)
    by (rewrite length_firstn, length_skipn; lia).
  split; [|split].
  - rewrite !length_app, L1, L2, length_skipn. lia.
  - intros c Hc. unfold cell.
    destruct (Z.ltb_spec (d + c) 0), (Z.ltb_spec (s + c) 0); try lia.
    rewrite nth_error_app2 by lia. rewrite L1.
    rewrite nth_error_app1 by lia.
    rewrite nth_error_firstn.
    destruct (Nat.ltb_spec (Z.to_nat (d + c) - Z.to_nat d) (Z.to_nat n)); [|lia].
    rewrite nth_error_skipn. f_equal. lia.
  - intros i Hi. unfold cell.
    destruct (Z.ltb_spec i 0); [reflexivity|].
    destruct Hi as [Hi|Hi].
    + rewrite nth_error_app1 by lia.
      rewrite nth_error_firstn.
      destruct (Nat.ltb_spec (Z.to_nat i) (Z.to_nat d)); [reflexivity | lia].
    + rewrite nth_error_app2 by lia. rewrite L1.
      rewrite nth_error_app2 by lia. rewrite L2.
      rewrite nth_error_skipn. f_equal. lia.
Qed.

(** The row loop inside both buffers: [h] rows of [old_w] cells go from
    [src] to the rows of a grid [new_w] wide, the first to [base]. *)
Section RowCopy.

Variables (old_w new_w h base : Z) (src : list Z).

Hypothesis old_w_pos : 0 < old_w.
Hypothesis new_w_wider : old_w <= new_w.
Hypothesis base_nonneg : 0 <= base.
Hypothesis src_cells : old_w * h = Z.of_nat (length src).
Hypothesis src_int : old_w * h <= INT_MAX.

(** The indices that the loop reaches by its two additions. *)
Lemma next_row (r : Z) :
  0 <= r -> r + 1 < h -> base + (h - 1) * new_w + old_w <= INT_MAX ->
  to_int (to_uint (to_uint (r * old_w) + old_w)) = (r + 1) * old_w
  /\ to_int (to_uint (to_uint (base + r * new_w) + new_w)) = base + (r + 1) * new_w.
Proof.
  intros Hr Hrh Hmax. unfold INT_MAX in *.
  rewrite (to_uint_small (r * old_w)) by (unfold UINT_MAX; nia).
  rewrite (to_uint_small (base + r * new_w)) by (unfold UINT_MAX; nia).
  rewrite (to_uint_small (r * old_w + old_w)) by (unfold UINT_MAX; nia).
  rewrite (to_uint_small (base + r * new_w + new_w)) by (unfold UINT_MAX; nia).
  rewrite !to_int_small by (unfold INT_MAX; nia).
  split; ring.
Qed.

(** Started at row [r], the loop copies every row from [r] on to its
    place, [base + row * new_w], and leaves the cells before the place of
    row [r] untouched. *)
Lemma copy_rows_spec (k : nat) :
  forall (r : Z) (dst : list Z) (oi ni : Z),
    0 <= r -> r + Z.of_nat k = h ->
    base + (h - 1) * new_w + old_w <= Z.of_nat (length dst) ->
    base + (h - 1) * new_w + old_w <= INT_MAX ->
    (k = O \/ (oi = r * old_w /\ ni = base + r * new_w)) ->
    exists dst',
      GridMap.copy_rows k old_w new_w src dst oi ni = Some dst'
      /\ length dst' = length dst
      /\ (forall row c, r <= row < h -> 0 <= c < old_w ->
                        cell dst' (base + row * new_w + c) = cell src (row * old_w + c))
      /\ (forall i, i < base + r * new_w -> cell dst' i = cell dst i).
Proof.
  induction k as [|k' IH]; intros r dst oi ni Hr Hrk Hlen Hmax Hidx.
  - exists dst. split; [reflexivity|]. split; [reflexivity|].
    split; [intros; lia | reflexivity].
  - destruct Hidx as [|[-> ->]]; [discriminate|].
    cbn [GridMap.copy_rows].
    assert (Hrh : r < h) by lia.
    destruct (memcpy_spec dst src (base + r * new_w) (r * old_w) old_w)
      as (d1 & E1 & L1 & C1 & F1); try nia.
    rewrite E1.
    destruct (IH (r + 1) d1
                 (to_int (to_uint (to_uint (r * old_w) + old_w)))
                 (to_int (to_uint (to_uint (base + r * new_w) + new_w))))
      as (d2 & E2 & L2 & C2 & F2); try lia.
    { destruct k' as [|k'']; [left; reflexivity | right].
      apply next_row; lia. }
    exists d2. split; [exact E2|]. split; [congruence|]. split.
    + intros row c Hrow Hc.
      destruct (Z.eq_dec row r) as [->|Hne].
      * rewrite F2 by nia.
        replace (base + r * new_w + c) with ((base + r * new_w) + c) by ring.
        apply C1, Hc.
      * apply C2; lia.
    + intros i Hi. rewrite F2 by nia. apply F1. left. exact Hi.
Qed.

End RowCopy.

Lemma round_shift_neg (q : Q) (j : Z) :
  (q + inject_Z j < 0)%Q -> 0 <= j -> round (q + inject_Z j) = round q + j.
Proof.
  intros Hneg Hj. unfold round.
  assert (Hjq : (0 <= inject_Z j)%Q) by (rewrite Zle_Qle in Hj; exact Hj).
  assert (E1 : Qle_bool 0 (q + inject_Z j) = false).
  { destruct (Qle_bool 0 (q + inject_Z j)) eqn:E; [|reflexivity].
    apply Qle_bool_iff in E. lra. }
  assert (E0 : Qle_bool 0 q = false).
  { destruct (Qle_bool 0 q) eqn:E; [|reflexivity].
    apply Qle_bool_iff in E. lra. }
  rewrite E0, E1. rewrite <- Qceiling_shift. apply Qceiling_comp. ring.
Qed.

Lemma to_int_shift (v a j : Z) :
  to_int v = a -> - 2 ^ 31 <= a + j <= INT_MAX -> to_int (v + j) = a + j.
Proof.
  unfold to_int, INT_MAX. intros Hv Hr.
  pose proof (Z.div_mod (v + 2 ^ 31) (2 ^ 32) ltac:(lia)) as Hdm.
  replace (v + j + 2 ^ 31) with (a + j + 2 ^ 31 + (v + 2 ^ 31) / 2 ^ 32 * 2 ^ 32) by lia.
  rewrite Z.mod_add by lia. rewrite Z.mod_small by lia. lia.
Qed.

(** A world coordinate that converts to the cell [a] of a grid converts
    to the cell [a + j] of a grid whose origin lies [j] cells lower. *)
Lemma shifted_coordinate (q : Q) (a j : Z) :
  to_int (round q) = a -> 0 <= a -> 0 <= j -> a + j <= INT_MAX ->
  to_int (round (q + inject_Z j)) = a + j.
Proof.
  intros Ha Ha0 Hj Hfit.
  assert (E : round (q + inject_Z j) = round q + j).
  { destruct (Z_lt_le_dec (round q) 0) as [Hneg|Hpos]; [|apply round_shift; assumption].
    apply round_shift_neg; [|exact Hj].
    (* a negative [round q] that wraps to a cell lies below [- 2 ^ 31] *)
    assert (Hlow : round q <= - 2 ^ 31).
    { unfold to_int in Ha.
      pose proof (Z.div_mod (round q + 2 ^ 31) (2 ^ 32) ltac:(lia)) as Hdm.
      pose proof (Z.mod_pos_bound (round q + 2 ^ 31) (2 ^ 32) ltac:(lia)).
      unfold INT_MAX in *. 
      assert ((round q + 2 ^ 31) / 2 ^ 32 < 0) by nia. nia. }
    assert (Hq : (q < inject_Z (round q) + 1)%Q).
    { unfold round in *. destruct (Qle_bool 0 q) eqn:E0.
      - pose proof (Qlt_floor (q + (1 # 2))) as H.
        rewrite inject_Z_plus in H. change (inject_Z 1) with 1%Q in H. lra.
      - pose proof (Qle_ceiling (q - (1 # 2))) as H. lra. }
    assert (Hb : (inject_Z (round q) <= inject_Z (- 2 ^ 31))%Q)
      by (rewrite <- Zle_Qle; exact Hlow).
    assert (Hjb : (inject_Z j <= inject_Z INT_MAX)%Q)
      by (rewrite <- Zle_Qle; lia).
    change (inject_Z (- 2 ^ 31)) with (- (2147483648 # 1))%Q in Hb.
    change (inject_Z INT_MAX) with (2147483647 # 1)%Q in Hjb.
    lra. }
  rewrite E. apply to_int_shift; [exact Ha | unfold INT_MAX in *; lia].
Qed.

Lemma getGridMapIndex_coords_inside (map : OccupancyGrid) (gx gy i0 : Z) :
  0 <= gx < width (info map) -> 0 <= gy < height (info map) ->
  width (info map) * height (info map) <= INT_MAX ->
  GridMap.getGridMapIndex_coords map gx gy i0 = (true, gx + gy * width (info map)).
Proof.
  intros Hx Hy Hfit. unfold GridMap.getGridMapIndex_coords, INT_MAX in *.
  set (w := width (info map)) in *. set (h := height (info map)) in *.
  assert (E : GridMap.out_of_bounds map gx gy = false).
  { apply out_of_bounds_spec; unfold INT_MAX; fold w h; nia. }
  rewrite E.
  rewrite (to_uint_small gx) by (unfold UINT_MAX; nia).
  rewrite (to_uint_small gy) by (unfold UINT_MAX; nia).
  rewrite (to_uint_small (gy * w)) by (unfold UINT_MAX; nia).
  rewrite to_uint_small by (unfold UINT_MAX; nia).
  rewrite to_int_small by (unfold INT_MAX; nia).
  reflexivity.
Qed.

Lemma getGridMapIndex_world_inside (map : OccupancyGrid) (wx wy : Q) (i0 i : Z) :
  width (info map) * height (info map) <= INT_MAX ->
  GridMap.getGridMapIndex_world map wx wy i0 = (true, i) ->
  let gx := to_int (round ((wx - x (origin (info map))) / resolution (info map))) in
  let gy := to_int (round ((wy - y (origin (info map))) / resolution (info map))) in
  0 <= gx < width (info map) /\ 0 <= gy < height (info map)
  /\ i = gx + gy * width (info map).
Proof.
  intros Hfit. unfold GridMap.getGridMapIndex_world, GridMap.getGridMapCoords_world.
  cbv zeta.
  set (gx := to_int (round ((wx - x (origin (info map))) / resolution (info map)))).
  set (gy := to_int (round ((wy - y (origin (info map))) / resolution (info map)))).
  destruct (GridMap.out_of_bounds map gx gy) eqn:E; cbn [negb]; [discriminate|].
  apply out_of_bounds_spec in E; [|apply to_int_range | apply to_int_range].
  destruct E as [Hx Hy].
  rewrite getGridMapIndex_coords_inside by assumption.
  intros E. injection E as <-. auto.
Qed.

(** Two grids of one resolution, the second with its origin [jx] and [jy]
    cells lower and with room for the first: a world point that has a
    cell in the first has the cell [jx] to the right and [jy] up in the
    second. *)
Lemma getGridMapIndex_world_shifted
      (m m' : OccupancyGrid) (jx jy : Z) (wx wy : Q) (i0 i0' i : Z) :
  let res := resolution (info m) in
  (0 < res)%Q -> resolution (info m') = res ->
  (x (origin (info m')) == x (origin (info m)) - inject_Z jx * res)%Q ->
  (y (origin (info m')) == y (origin (info m)) - inject_Z jy * res)%Q ->
  0 <= jx -> 0 <= jy ->
  width (info m) + jx <= width (info m') ->
  height (info m) + jy <= height (info m') ->
  width (info m) * height (info m) <= INT_MAX ->
  width (info m') * height (info m') <= INT_MAX ->
  GridMap.getGridMapIndex_world m wx wy i0 = (true, i) ->
  exists gx gy,
    0 <= gx < width (info m) /\ 0 <= gy < height (info m)
    /\ i = gx + gy * width (info m)
    /\ GridMap.getGridMapIndex_world m' wx wy i0'
       = (true, (gx + jx) + (gy + jy) * width (info m')).
Proof.
  intros res Hres Eres Ex Ey Hjx Hjy Hw Hh Hfit Hfit' Hi.
  destruct (getGridMapIndex_world_inside m wx wy i0 i Hfit Hi) as (Hgx & Hgy & ->).
  fold res in Hgx, Hgy |- *.
  set (gx := to_int (round ((wx - x (origin (info m))) / res))) in *.
  set (gy := to_int (round ((wy - y (origin (info m))) / res))) in *.
  exists gx, gy. split; [exact Hgx|]. split; [exact Hgy|]. split; [reflexivity|].
  pose proof (Qpos_neq0 res Hres) as Hne.
  unfold INT_MAX in *.
  assert (Hx' : to_int (round ((wx - x (origin (info m'))) / resolution (info m'))) = gx + jx).
  { rewrite Eres.
    rewrite (round_comp _ ((wx - x (origin (info m))) / res + inject_Z jx))
      by (rewrite Ex; field; exact Hne).
    apply shifted_coordinate; [reflexivity | lia | lia | unfold INT_MAX; nia]. }
  assert (Hy' : to_int (round ((wy - y (origin (info m'))) / resolution (info m'))) = gy + jy).
  { rewrite Eres.
    rewrite (round_comp _ ((wy - y (origin (info m))) / res + inject_Z jy))
      by (rewrite Ey; field; exact Hne).
    apply shifted_coordinate; [reflexivity | lia | lia | unfold INT_MAX; nia]. }
  unfold GridMap.getGridMapIndex_world, GridMap.getGridMapCoords_world. cbv zeta.
  rewrite Hx', Hy'.
  assert (E : GridMap.out_of_bounds m' (gx + jx) (gy + jy) = false).
  { apply out_of_bounds_spec; unfold INT_MAX; nia. }
  rewrite E. cbn [negb].
  apply getGridMapIndex_coords_inside; unfold INT_MAX; lia.
Qed.

(** The geometry that [resize] allocates for a consistent, filled grid
    map: the origin moves down by whole cells, the old grid fits to the
    right of and above its old origin, and the new bounds span the new
    width and height. *)
Lemma allocate_geometry (g : GridMap.t) (rmin rmax : Vector3) :
  consistent g -> GridMap.empty g = false ->
  let m := GridMap.grid_map g in
  let res := resolution (info m) in
  let mn := fst (GridMap.grown_bounds g rmin rmax) in
  let mx := snd (GridMap.grown_bounds g rmin rmax) in
  let new := GridMap.allocate m mn mx in
  let cols := ceil ((x mx - x mn) / res) in
  let rows := ceil ((y mx - y mn) / res) in
  (cols + 1) * (rows + 1) <= INT_MAX ->
  exists jx jy,
    0 <= jx /\ 0 <= jy
    /\ (x mn == x (origin (info m)) - inject_Z jx * res)%Q
    /\ (y mn == y (origin (info m)) - inject_Z jy * res)%Q
    /\ width (info m) + jx <= width (info new)
    /\ height (info m) + jy <= height (info new)
    /\ width (info new) = cols + 1 /\ height (info new) = rows + 1
    /\ (x mx == x mn + inject_Z (width (info new) - 1) * res)%Q
    /\ (y mx == y mn + inject_Z (height (info new) - 1) * res)%Q.
Proof.
  intros (Hres & Eox & Eoy & Hw & Hh & Emx & Emy & _ & _ & Hmes) He
         m res mn mx new cols rows Hfit.
  fold m res in Hres, Eox, Eoy, Hw, Hh, Emx, Emy, Hmes.
  destruct (lower_edge_steps res (GridMap.min_expansion_size g)
              (x (GridMap.min g)) (x rmin) Hres Hmes) as (jx & Hjx & Ejx).
  destruct (lower_edge_steps res (GridMap.min_expansion_size g)
              (y (GridMap.min g)) (y rmin) Hres Hmes) as (jy & Hjy & Ejy).
  destruct (upper_edge_steps res (GridMap.min_expansion_size g)
              (x (GridMap.max g)) (x rmax) Hres Hmes) as (kx & Hkx & Ekx).
  destruct (upper_edge_steps res (GridMap.min_expansion_size g)
              (y (GridMap.max g)) (y rmax) Hres Hmes) as (ky & Hky & Eky).
  assert (Hmnx : (x mn == x (GridMap.min g) - inject_Z jx * res)%Q).
  { subst mn. unfold GridMap.grown_bounds. rewrite He. exact Ejx. }
  assert (Hmny : (y mn == y (GridMap.min g) - inject_Z jy * res)%Q).
  { subst mn. unfold GridMap.grown_bounds. rewrite He. exact Ejy. }
  assert (Hmxx : (x mx == x (GridMap.max g) + inject_Z kx * res)%Q).
  { subst mx. unfold GridMap.grown_bounds. rewrite He. exact Ekx. }
  assert (Hmxy : (y mx == y (GridMap.max g) + inject_Z ky * res)%Q).
  { subst mx. unfold GridMap.grown_bounds. rewrite He. exact Eky. }
  assert (Sx : (x mx == x mn + inject_Z (width (info m) - 1 + jx + kx) * res)%Q).
  { rewrite Hmxx, Hmnx, Emx, !inject_Z_plus. ring. }
  assert (Sy : (y mx == y mn + inject_Z (height (info m) - 1 + jy + ky) * res)%Q).
  { rewrite Hmxy, Hmny, Emy, !inject_Z_plus. ring. }
  assert (Ecols : cols = width (info m) - 1 + jx + kx) by (apply span_cells; assumption).
  assert (Erows : rows = height (info m) - 1 + jy + ky) by (apply span_cells; assumption).
  assert (Ew : width (info new) = cols + 1).
  { subst new. cbn [GridMap.allocate info width]. fold m res cols.
    apply dimension_fits. unfold UINT_MAX, INT_MAX in *. nia. }
  assert (Eh : height (info new) = rows + 1).
  { subst new. cbn [GridMap.allocate info height]. fold m res rows.
    apply dimension_fits. unfold UINT_MAX, INT_MAX in *. nia. }
  exists jx, jy.
  split; [exact Hjx|]. split; [exact Hjy|].
  split; [rewrite Eox; exact Hmnx|]. split; [rewrite Eoy; exact Hmny|].
  split; [lia|]. split; [lia|]. split; [exact Ew|]. split; [exact Eh|].
  split.
  - rewrite Ew, Ecols, Sx. apply Qplus_inj_l, Qmult_inj_r; [apply Qpos_neq0, Hres|].
    apply inject_Z_injective. lia.
  - rewrite Eh, Erows, Sy. apply Qplus_inj_l, Qmult_inj_r; [apply Qpos_neq0, Hres|].
    apply inject_Z_injective. lia.
Qed.

Lemma origin_cell (m : OccupancyGrid) (i0 : Z) :
  (0 < resolution (info m))%Q -> 1 <= width (info m) -> 1 <= height (info m) ->
  width (info m) * height (info m) <= INT_MAX ->
  GridMap.getGridMapIndex_world m (x (origin (info m))) (y (origin (info m))) i0 = (true, 0).
Proof.
  intros Hres Hw Hh Hfit.
  unfold GridMap.getGridMapIndex_world, GridMap.getGridMapCoords_world. cbv zeta.
  assert (E : forall o : Q, round ((o - o) / resolution (info m)) = 0).
  { intros o. rewrite <- (round_inject_Z 0). apply round_comp.
    change (inject_Z 0) with 0%Q. field. apply Qpos_neq0, Hres. }
  rewrite !E. change (to_int 0) with 0.
  assert (Eb : GridMap.out_of_bounds m 0 0 = false)
    by (apply out_of_bounds_spec; unfold INT_MAX; lia).
  rewrite Eb. cbn [negb].
  rewrite getGridMapIndex_coords_inside by lia. reflexivity.
Qed.

(** On a consistent, filled grid map the conversion of the old origin
    that [resize] makes in the new geometry succeeds, whatever box is
    requested, as long as the new grid can be indexed by an [int]. *)
Lemma resize_origin_converts (g : GridMap.t) (rmin rmax : Vector3) :
  consistent g -> GridMap.empty g = false ->
  let m := GridMap.grid_map g in
  let res := resolution (info m) in
  let mn := fst (GridMap.grown_bounds g rmin rmax) in
  let mx := snd (GridMap.grown_bounds g rmin rmax) in
  let new := GridMap.allocate m mn mx in
  (ceil ((x mx - x mn) / res) + 1) * (ceil ((y mx - y mn) / res) + 1) <= INT_MAX ->
  exists new_idx,
    GridMap.getGridMapIndex_world new (x (origin (info m))) (y (origin (info m))) 0
    = (true, new_idx)
    /\ 0 <= new_idx < Z.of_nat (length (data new)).
Proof.
  intros Hc He m res mn mx new Hfit.
  destruct (allocate_geometry g rmin rmax Hc He Hfit)
    as (jx & jy & Hjx & Hjy & Ex & Ey & Hw & Hh & Ew & Eh & _).
  fold m res mn mx new in Ex, Ey, Hw, Hh, Ew, Eh.
  destruct Hc as (Hres & _ & _ & Hw1 & Hh1 & _ & _ & _ & Hfit0 & _).
  fold m res in Hres, Hw1, Hh1, Hfit0.
  assert (Hfit' : width (info new) * height (info new) <= INT_MAX)
    by (rewrite Ew, Eh; exact Hfit).
  destruct (getGridMapIndex_world_shifted m new jx jy
              (x (origin (info m))) (y (origin (info m))) 0 0 0)
    as (gx & gy & Hgx & Hgy & E0 & E); try assumption; try reflexivity.
  { apply origin_cell; assumption. }
  eexists. split; [exact E|].
  assert (Ed : data new
               = repeat int8_min (Z.to_nat (to_uint (width (info new) * height (info new)))))
    by reflexivity.
  rewrite Ed, repeat_length, Z2Nat.id by apply to_uint_range.
  set (w' := width (info new)) in *. set (h' := height (info new)) in *.
  assert (Hrow : (gy + jy) * w' <= (h' - 1) * w') by (apply Z.mul_le_mono_nonneg_r; lia).
  rewrite to_uint_small by (unfold UINT_MAX, INT_MAX in *; nia).
  nia.
Qed.

Lemma cell_inside (l : list Z) (i : Z) :
  0 <= i < Z.of_nat (length l) -> exists v, cell l i = Some v.
Proof.
  intros Hi. unfold cell. destruct (Z.ltb_spec i 0); [lia|].
  destruct (nth_error l (Z.to_nat i)) as [v|] eqn:E; [exists v; reflexivity|].
  apply nth_error_None in E. lia.
Qed.

(** On a consistent, filled grid map, a [resize] that has to grow (to a
    grid that can be indexed by an [int]) returns a consistent grid map in
    which every world point that had a cell has a cell of the same
    value. *)
Lemma resize_preserves_cells (g : GridMap.t) (rmin rmax : Vector3) :
  consistent g -> GridMap.empty g = false ->
  GridMap.covers g rmin rmax = false ->
  let res := resolution (info (GridMap.grid_map g)) in
  let mn := fst (GridMap.grown_bounds g rmin rmax) in
  let mx := snd (GridMap.grown_bounds g rmin rmax) in
  (ceil ((x mx - x mn) / res) + 1) * (ceil ((y mx - y mn) / res) + 1) <= INT_MAX ->
  exists g',
    GridMap.resize g rmin rmax = Some g'
    /\ consistent g'
    /\ forall wx wy i,
        GridMap.getGridMapIndex_world (GridMap.grid_map g) wx wy 0 = (true, i) ->
        exists v i',
          GridMap.at_ g i = Some v
          /\ GridMap.getGridMapIndex_world (GridMap.grid_map g') wx wy 0 = (true, i')
          /\ GridMap.at_ g' i' = Some v.
Proof.
  intros Hc He Hcov res mn mx Hfit.
  destruct (allocate_geometry g rmin rmax Hc He Hfit)
    as (jx & jy & Hjx & Hjy & Ex & Ey & Hw & Hh & Ew & Eh & Sx & Sy).
  fold res mn mx in Ex, Ey, Hw, Hh, Ew, Eh, Sx, Sy.
  destruct Hc as (Hres & Eox & Eoy & Hw1 & Hh1 & _ & _ & Hinv & Hfit0 & Hmes).
  set (m := GridMap.grid_map g) in *. fold res in Hres, Hmes.
  set (new := GridMap.allocate m mn mx) in *.
  assert (Hfit' : width (info new) * height (info new) <= INT_MAX)
    by (rewrite Ew, Eh; exact Hfit).
  set (w := width (info m)) in *. set (h := height (info m)) in *.
  set (w' := width (info new)) in *. set (h' := height (info new)) in *.
  assert (Hshift : forall wx wy i0 i,
             GridMap.getGridMapIndex_world m wx wy i0 = (true, i) ->
             exists gx gy, 0 <= gx < w /\ 0 <= gy < h /\ i = gx + gy * w
                           /\ GridMap.getGridMapIndex_world new wx wy 0
                              = (true, (gx + jx) + (gy + jy) * w')).
  { intros wx wy i0 i Hi.
    apply (getGridMapIndex_world_shifted m new jx jy wx wy i0 0 i);
      try assumption; reflexivity. }
  (* the index of the old origin in the new buffer *)
  destruct (Hshift _ _ 0 0 (origin_cell m 0 Hres Hw1 Hh1 Hfit0))
    as (gx0 & gy0 & Hgx0 & Hgy0 & E0 & Eidx).
  assert (gx0 = 0 /\ gy0 = 0) as [-> ->] by nia.
  cbn [Z.add] in Eidx.
  (* the cells of the new buffer *)
  assert (Elen : Z.of_nat (length (data new)) = w' * h').
  { assert (Ed : data new = repeat int8_min (Z.to_nat (to_uint (w' * h')))) by reflexivity.
    rewrite Ed, repeat_length, Z2Nat.id by apply to_uint_range.
    apply to_uint_small. unfold UINT_MAX, INT_MAX in *. nia. }
  assert (Hrow : (jy + (h - 1)) * w' <= (h' - 1) * w')
    by (apply Z.mul_le_mono_nonneg_r; lia).
  destruct (copy_rows_spec w w' h (jx + jy * w') (data m)
              ltac:(lia) ltac:(lia) ltac:(nia) Hinv Hfit0
              (Z.to_nat h) 0 (data new) 0 (jx + jy * w'))
    as (d & Ecopy & Ld & Hcopied & _); try lia; try nia.
  (* the call *)
  unfold GridMap.resize. rewrite Hcov.
  rewrite (surjective_pairing (GridMap.grown_bounds g rmin rmax)).
  cbv beta iota zeta. fold mn mx. fold m. fold new. fold w w' h.
  rewrite Eidx. cbn [snd]. rewrite Ecopy.
  eexists. split; [reflexivity|]. split.
  - unfold consistent.
    cbn [GridMap.grid_map GridMap.with_data GridMap.min GridMap.max
         GridMap.min_expansion_size info data].
    fold w' h'.
    split; [exact Hres|]. split; [reflexivity|]. split; [reflexivity|].
    split; [lia|]. split; [lia|]. split; [exact Sx|]. split; [exact Sy|].
    split; [unfold size_invariant, GridMap.with_data; cbn [info data]; fold w' h'; lia|].
    split; [exact Hfit' | exact Hmes].
  - intros wx wy i Hi.
    destruct (Hshift wx wy 0 i Hi) as (gx & gy & Hgx & Hgy & -> & Enew).
    destruct (cell_inside (data m) (gx + gy * w)) as [v Hv].
    { unfold size_invariant in Hinv. fold w h in Hinv. rewrite <- Hinv.
      assert (gy * w <= (h - 1) * w) by (apply Z.mul_le_mono_nonneg_r; lia). nia. }
    exists v, ((gx + jx) + (gy + jy) * w').
    split; [exact Hv|]. split; [exact Enew|].
    change (cell d (gx + jx + (gy + jy) * w') = Some v).
    replace (gx + jx + (gy + jy) * w') with (jx + jy * w' + gy * w' + gx) by ring.
    rewrite Hcopied by lia.
    rewrite <- Hv. f_equal. ring.
Qed.

(** *** From [create] on *)

Lemma resize_keeps_settings (g g' : GridMap.t) (rmin rmax : Vector3) :
  GridMap.resize g rmin rmax = Some g' ->
  resolution (info (GridMap.grid_map g')) = resolution (info (GridMap.grid_map g))
  /\ GridMap.min_expansion_size g' = GridMap.min_expansion_size g.
Proof.
  unfold GridMap.resize. destruct (GridMap.covers g rmin rmax).
  - intros E. injection E as <-. auto.
  - destruct (GridMap.grown_bounds g rmin rmax) as [mn mx].
    destruct (GridMap.copy_rows _ _ _ _ _ _ _); [|discriminate].
    intros E. injection E as <-. auto.
Qed.

Lemma snapped_span (res lo hi : Q) :
  (0 < res)%Q ->
  (pceil hi res
   == pfloor lo res + inject_Z (ceil ((pceil hi res - pfloor lo res) / res)) * res)%Q.
Proof.
  intros Hres.
  assert (E : ceil ((pceil hi res - pfloor lo res) / res)
              = ceil (hi / res) - floor (lo / res)).
  { apply span_cells; [exact Hres|]. unfold pceil, pfloor, Z.sub.
    rewrite inject_Z_plus, inject_Z_opp. ring. }
  rewrite E. unfold pceil, pfloor, Z.sub. rewrite inject_Z_plus, inject_Z_opp. ring.
Qed.

(** What [resize] returns on an empty buffer, with no stale width or
    height, once past the opening test. *)
Lemma resize_empty_buffer (g : GridMap.t) (rmin rmax : Vector3) :
  GridMap.empty g = true ->
  GridMap.covers g rmin rmax = false ->
  size_invariant (GridMap.grid_map g) ->
  let res := resolution (info (GridMap.grid_map g)) in
  let mn := {| x := pfloor (x rmin) res; y := pfloor (y rmin) res; z := z (GridMap.min g) |} in
  let mx := {| x := pceil (x rmax) res; y := pceil (y rmax) res; z := z (GridMap.max g) |} in
  GridMap.resize g rmin rmax
  = Some {| GridMap.grid_map := GridMap.allocate (GridMap.grid_map g) mn mx;
            GridMap.min := mn; GridMap.max := mx;
            GridMap.min_expansion_size := GridMap.min_expansion_size g |}.
Proof.
  intros He Hc Hinv res mn mx.
  assert (Hd : data (GridMap.grid_map g) = []).
  { unfold GridMap.empty in He. destruct (data (GridMap.grid_map g)); [reflexivity | discriminate]. }
  unfold size_invariant in Hinv. rewrite Hd in Hinv. cbn in Hinv.
  unfold GridMap.resize. rewrite Hc.
  unfold GridMap.grown_bounds. rewrite He. fold res. fold mn mx.
  rewrite Hd. rewrite copy_rows_nothing by lia.
  reflexivity.
Qed.

(** The first allocation of a grid map with a positive resolution and an
    aligned minimum expansion size, for a box that is not inverted, gives
    a consistent grid map. *)
Lemma resize_first_allocation_consistent (g : GridMap.t) (rmin rmax : Vector3) :
  GridMap.empty g = true ->
  GridMap.covers g rmin rmax = false ->
  size_invariant (GridMap.grid_map g) ->
  let res := resolution (info (GridMap.grid_map g)) in
  let cols := ceil ((pceil (x rmax) res - pfloor (x rmin) res) / res) in
  let rows := ceil ((pceil (y rmax) res - pfloor (y rmin) res) / res) in
  (0 < res)%Q -> aligned res (GridMap.min_expansion_size g) ->
  0 <= cols -> 0 <= rows -> (cols + 1) * (rows + 1) <= INT_MAX ->
  exists g', GridMap.resize g rmin rmax = Some g' /\ consistent g'.
Proof.
  intros He Hc Hinv res cols rows Hres Hmes Hcols Hrows Hfit.
  rewrite (resize_empty_buffer g rmin rmax He Hc Hinv). fold res.
  eexists. split; [reflexivity|].
  unfold consistent.
  cbn [GridMap.grid_map GridMap.min GridMap.max GridMap.min_expansion_size
       GridMap.allocate info data resolution origin width height x y].
  fold res. fold cols rows.
  rewrite !dimension_fits by (unfold UINT_MAX, INT_MAX in *; nia).
  split; [exact Hres|]. split; [reflexivity|]. split; [reflexivity|].
  split; [lia|]. split; [lia|].
  replace (cols + 1 - 1) with cols by lia. replace (rows + 1 - 1) with rows by lia.
  split; [apply snapped_span, Hres|]. split; [apply snapped_span, Hres|].
  split; [|split; [exact Hfit | exact Hmes]].
  unfold size_invariant.
  cbn [GridMap.allocate info data resolution width height x y].
  fold res. fold cols rows.
  rewrite !dimension_fits by (unfold UINT_MAX, INT_MAX in *; nia).
  rewrite repeat_length, Z2Nat.id by apply to_uint_range.
  symmetry. apply to_uint_small. unfold UINT_MAX, INT_MAX in *. nia.
Qed.

Example eighth_square_consistent : consistent eighth_square.
Proof.
  unfold consistent. cbn [eighth_square GridMap.grid_map GridMap.min GridMap.max
                          GridMap.min_expansion_size info resolution origin
                          width height x y].
  split; [reflexivity|]. split; [reflexivity|]. split; [reflexivity|].
  split; [lia|]. split; [lia|]. split; [reflexivity|]. split; [reflexivity|].
  split; [reflexivity|]. split; [unfold INT_MAX; lia|].
  exists 2. reflexivity.
Qed.

(** At resolution 0.1 the message holds 13421773 / 2^27, and the minimum
    expansion size 0.2 is not a whole number of such cells: [unit_square]
    is not consistent. *)
Example unit_square_misaligned :
  resolution (info unit_map) = to_float (1 # 10)
  /\ ~ aligned (resolution (info unit_map)) (GridMap.min_expansion_size unit_square).
Proof.
  split; [vm_compute; reflexivity|].
  change (resolution (info unit_map)) with (13421773 # 134217728).
  change (GridMap.min_expansion_size unit_square) with (2 # 10).
  intros [k Hk]. unfold Qeq, Qmult, inject_Z in Hk. cbn [Qnum Qden] in Hk. lia.
Qed.

(** A cell written into [unit_square] at the world point (0.5, 0.5) is
    read at that point after the grid has grown to reach x = 1.05. *)
Example cell_kept_after_growth :
  exists g1 g2 i,
    GridMap.set_at unit_square 60 5 = Some g1
    /\ GridMap.getGridMapIndex_world (GridMap.grid_map g1) (1 # 2) (1 # 2) 0 = (true, 60)
    /\ GridMap.resize g1 (vec 0 0 0) (vec (105 # 100) 1 0) = Some g2
    /\ width (info (GridMap.grid_map g2)) = 13
    /\ GridMap.getGridMapIndex_world (GridMap.grid_map g2) (1 # 2) (1 # 2) 0 = (true, i)
    /\ GridMap.at_ g2 i = Some 5.
Proof.
  destruct (GridMap.set_at unit_square 60 5) as [g1|] eqn:E1;
    vm_compute in E1; [|discriminate].
  injection E1 as <-.
  eexists _, _, _. split; [reflexivity|]. split; [reflexivity|].
  split; [vm_compute; reflexivity|]. repeat split.
Qed.

(** *** The growth of the edges *)




(** * Further properties of the conversions *)

(** Encoding a coordinate pair of the grid and decoding the index gives
    the pair back, so two pairs of the grid never share an index. *)
Theorem coords_index_roundtrip (map : OccupancyGrid) (gx gy i0 : Z) :
  0 <= gx < width (info map) -> 0 <= gy < height (info map) ->
  width (info map) * height (info map) <= INT_MAX ->
  GridMap.getGridMapIndex_coords map gx gy i0 = (true, gx + gy * width (info map))
  /\ GridMap.getGridMapCoords_idx map (gx + gy * width (info map)) = Some (true, (gx, gy))
  /\ (forall gx' gy',
         0 <= gx' < width (info map) -> 0 <= gy' < height (info map) ->
         GridMap.getGridMapIndex_coords map gx' gy' i0
         = GridMap.getGridMapIndex_coords map gx gy i0 ->
         gx' = gx /\ gy' = gy).
Proof.
  intros Hx Hy Hfit.
  set (w := width (info map)) in *. set (h := height (info map)) in *.
  assert (Hrow : forall a, 0 <= a < h -> a * w <= (h - 1) * w)
    by (intros a Ha; apply Z.mul_le_mono_nonneg_r; lia).
  assert (Hidx : forall a b, 0 <= a < w -> 0 <= b < h -> 0 <= a + b * w <= INT_MAX).
  { intros a b Ha Hb. pose proof (Hrow b Hb). nia. }
  split; [apply getGridMapIndex_coords_inside; assumption|].
  split.
  - rewrite (getGridMapCoords_idx_nonneg map (gx + gy * w) ltac:(fold w; lia) (Hidx gx gy Hx Hy)).
    fold w.
    rewrite Z.mod_add, Z.div_add, Z.mod_small, Z.div_small by lia.
    cbn [Z.add].
    assert (E : GridMap.out_of_bounds map gx gy = false).
    { apply out_of_bounds_spec; unfold INT_MAX in *; fold w h; nia. }
    rewrite E. reflexivity.
  - intros gx' gy' Hx' Hy'.
    rewrite !getGridMapIndex_coords_inside by assumption. fold w.
    intros E. injection E as E.
    assert (gy' = gy) by nia. subst gy'. lia.
Qed.

Lemma coords_index_roundtrip_witness :
  (0 <= 5 < width (info unit_map) /\ 0 <= 7 < height (info unit_map)
   /\ width (info unit_map) * height (info unit_map) <= INT_MAX)
  /\ GridMap.getGridMapIndex_coords unit_map 5 7 0 = (true, 82)
  /\ GridMap.getGridMapCoords_idx unit_map 82 = Some (true, (5, 7)).
Proof.
  split; [vm_compute; intuition discriminate|].
  destruct (coords_index_roundtrip unit_map 5 7 0) as (E1 & E2 & _);
    [vm_compute; intuition discriminate .. |].
  split; [exact E1 | exact E2].
Defined.



(** Decoding an index of the grid into world coordinates and converting
    those back gives the index; an index past the end is reported as a
    failure and leaves the coordinates passed in untouched. *)
Theorem index_world_roundtrip (map : OccupancyGrid) (idx i0 : Z) (x0 y0 : Q) :
  ~ (resolution (info map) == 0)%Q ->
  0 < width (info map) -> 0 < height (info map) ->
  width (info map) * height (info map) <= INT_MAX ->
  (0 <= idx < width (info map) * height (info map) ->
   exists wx wy,
     GridMap.getGridMapWorldCoords_idx map idx x0 y0 = Some (true, (wx, wy))
     /\ GridMap.getGridMapIndex_world map wx wy i0 = (true, idx))
  /\ (width (info map) * height (info map) <= idx <= INT_MAX ->
      GridMap.getGridMapWorldCoords_idx map idx x0 y0 = Some (false, (x0, y0))).
Proof.
  intros Hres Hw Hh Hfit.
  set (w := width (info map)) in *. set (h := height (info map)) in *.
  split.
  - intros Hi.
    pose proof (Z.mod_pos_bound idx w Hw) as Hm.
    pose proof (Z.div_pos idx w ltac:(lia) Hw) as Hd.
    assert (Hlt : idx / w < h) by (apply Z.div_lt_upper_bound; lia).
    pose proof (Z.div_mod idx w ltac:(lia)) as Hdm.
    assert (Hin : GridMap.out_of_bounds map (idx mod w) (idx / w) = false).
    { apply out_of_bounds_spec; unfold INT_MAX in *; fold w h; nia. }
    unfold GridMap.getGridMapWorldCoords_idx.
    rewrite getGridMapCoords_idx_nonneg by (fold w; lia). fold w.
    rewrite Hin. cbn [negb].
    eexists _, _. split; [reflexivity|].
    unfold GridMap.getGridMapIndex_world, GridMap.getGridMapCoords_world. cbv zeta.
    rewrite !cell_offset by exact Hres.
    rewrite !to_int_small by (unfold INT_MAX in *; nia).
    rewrite Hin. cbn [negb].
    rewrite getGridMapIndex_coords_inside by (fold w h; lia). fold w.
    f_equal. lia.
  - intros Hi.
    unfold GridMap.getGridMapWorldCoords_idx.
    rewrite getGridMapCoords_idx_nonneg by (fold w; nia). fold w.
    assert (Hge : h <= idx / w) by (apply Z.div_le_lower_bound; lia).
    assert (Hout : GridMap.out_of_bounds map (idx mod w) (idx / w) = true).
    { destruct (GridMap.out_of_bounds map (idx mod w) (idx / w)) eqn:E; [reflexivity|].
      pose proof (Z.mod_pos_bound idx w Hw).
      pose proof (Z.mod_le idx w ltac:(nia) Hw).
      pose proof (Z.div_le_upper_bound idx w idx Hw ltac:(nia)).
      apply out_of_bounds_spec in E; unfold INT_MAX in *; fold w h in E |- *; lia. }
    rewrite Hout. reflexivity.
Qed.

Lemma index_world_roundtrip_witness :
  (~ (resolution (info unit_map) == 0)%Q
   /\ 0 < width (info unit_map) /\ 0 < height (info unit_map)
   /\ width (info unit_map) * height (info unit_map) <= INT_MAX
   /\ 0 <= 82 < width (info unit_map) * height (info unit_map))
  /\ exists wx wy,
      GridMap.getGridMapWorldCoords_idx unit_map 82 0 0 = Some (true, (wx, wy))
      /\ GridMap.getGridMapIndex_world unit_map wx wy 0 = (true, 82).
Proof.
  split; [vm_compute; intuition discriminate|].
  apply (index_world_roundtrip unit_map 82 0 0 0); vm_compute; intuition discriminate.
Defined.

Lemma round_within (q : Q) (n : Z) :
  (0 <= q)%Q -> (q <= inject_Z n)%Q -> 0 <= round q <= n.
Proof.
  intros H0 Hn. unfold round.
  rewrite (proj2 (Qle_bool_iff 0 q) H0). split.
  - apply Qfloor_ge_Z. change (inject_Z 0) with 0%Q. lra.
  - assert (Qfloor (q + (1 # 2)) < n + 1); [|lia].
    apply Qfloor_lt_Z. rewrite inject_Z_plus. change (inject_Z 1) with 1%Q. lra.
Qed.

Lemma cells_from_origin (res o lo hi w : Q) (n : Z) :
  (0 < res)%Q -> (o == lo)%Q -> (hi == lo + inject_Z n * res)%Q ->
  (lo <= w)%Q -> (w <= hi)%Q ->
  (0 <= (w - o) / res)%Q /\ ((w - o) / res <= inject_Z n)%Q.
Proof.
  intros Hres Eo Ehi Hlo Hhi. split.
  - apply Qle_shift_div_l; [exact Hres|]. lra.
  - apply Qle_shift_div_r; [exact Hres|]. lra.
Qed.

Lemma bounds_have_cells (g : GridMap.t) (wx wy : Q) :
  consistent g ->
  (x (GridMap.min g) <= wx)%Q -> (wx <= x (GridMap.max g))%Q ->
  (y (GridMap.min g) <= wy)%Q -> (wy <= y (GridMap.max g))%Q ->
  exists i v,
    GridMap.getGridMapIndex_world (GridMap.grid_map g) wx wy 0 = (true, i)
    /\ GridMap.at_ g i = Some v.
Proof.
  intros (Hres & Eox & Eoy & Hw & Hh & Emx & Emy & Hinv & Hfit & _) Hx1 Hx2 Hy1 Hy2.
  set (m := GridMap.grid_map g) in *.
  set (w := width (info m)) in *. set (h := height (info m)) in *.
  destruct (cells_from_origin _ _ _ _ wx _ Hres Eox Emx Hx1 Hx2) as [Hqx0 Hqx1].
  destruct (cells_from_origin _ _ _ _ wy _ Hres Eoy Emy Hy1 Hy2) as [Hqy0 Hqy1].
  pose proof (round_within _ _ Hqx0 Hqx1) as Hrx.
  pose proof (round_within _ _ Hqy0 Hqy1) as Hry.
  unfold GridMap.getGridMapIndex_world, GridMap.getGridMapCoords_world. cbv zeta.
  fold m.
  set (gx := round ((wx - x (origin (info m))) / resolution (info m))) in *.
  set (gy := round ((wy - y (origin (info m))) / resolution (info m))) in *.
  assert (Hrow : gy * w <= (h - 1) * w) by (apply Z.mul_le_mono_nonneg_r; lia).
  rewrite !to_int_small by (unfold INT_MAX in *; nia).
  assert (E : GridMap.out_of_bounds m gx gy = false).
  { apply out_of_bounds_spec; unfold INT_MAX in *; fold w h; nia. }
  rewrite E. cbn [negb].
  rewrite getGridMapIndex_coords_inside by (fold w h; lia). fold w.
  destruct (cell_inside (data m) (gx + gy * w)) as [v Hv].
  { unfold size_invariant in Hinv. fold w h in Hinv. rewrite <- Hinv. nia. }
  exists (gx + gy * w), v. split; [reflexivity | exact Hv].
Qed.



(** * The box around a cloud *)

Lemma std_min_l (a b : Q) : (std_min a b <= a)%Q.
Proof.
  unfold std_min. destruct (Qlt_bool b a) eqn:E.
  - apply Qlt_le_weak, Qlt_bool_iff, E.
  - apply Qle_refl.
Qed.

Lemma std_min_r (a b : Q) : (std_min a b <= b)%Q.
Proof.
  unfold std_min. destruct (Qlt_bool b a) eqn:E.
  - apply Qle_refl.
  - apply Qlt_bool_false_iff, E.
Qed.

Section Scan.

Variable f : pcl.PointXYZ -> Q.

(** The running minimum of one coordinate. *)
Lemma scan_min (cloud : list pcl.PointXYZ) (a0 : Q) :
  let r := fold_left (fun a p => std_min a (f p)) cloud a0 in
  (r <= a0)%Q
  /\ (forall p, In p cloud -> (r <= f p)%Q)
  /\ (r = a0 \/ exists p, In p cloud /\ r = f p).
Proof.
  revert a0. induction cloud as [|q cloud IH]; intros a0; cbn [fold_left].
  - split; [apply Qle_refl|]. split; [intros p []|]. left. reflexivity.
  - destruct (IH (std_min a0 (f q))) as (H1 & H2 & H3).
    split; [eapply Qle_trans; [exact H1 | apply std_min_l]|].
    split.
    + intros p [<-|Hp]; [|apply H2, Hp].
      eapply Qle_trans; [exact H1 | apply std_min_r].
    + destruct H3 as [E|(p & Hp & E)].
      * rewrite E. unfold std_min. destruct (Qlt_bool (f q) a0).
        -- right. exists q. split; [left; reflexivity | reflexivity].
        -- left. reflexivity.
      * right. exists p. split; [right; exact Hp | exact E].
Qed.

(** The running maximum of one coordinate. *)
Lemma scan_max (cloud : list pcl.PointXYZ) (a0 : Q) :
  let r := fold_left (fun a p => std_max a (f p)) cloud a0 in
  (a0 <= r)%Q
  /\ (forall p, In p cloud -> (f p <= r)%Q)
  /\ (r = a0 \/ exists p, In p cloud /\ r = f p).
Proof.
  revert a0. induction cloud as [|q cloud IH]; intros a0; cbn [fold_left].
  - split; [apply Qle_refl|]. split; [intros p []|]. left. reflexivity.
  - destruct (IH (std_max a0 (f q))) as (H1 & H2 & H3).
    split; [eapply Qle_trans; [apply std_max_l | exact H1]|].
    split.
    + intros p [<-|Hp]; [|apply H2, Hp].
      eapply Qle_trans; [apply std_max_r | exact H1].
    + destruct H3 as [E|(p & Hp & E)].
      * rewrite E. unfold std_max. destruct (Qlt_bool a0 (f q)).
        -- right. exists q. split; [left; reflexivity | reflexivity].
        -- left. reflexivity.
      * right. exists p. split; [right; exact Hp | exact E].
Qed.

End Scan.

(** The pass over the cloud, one coordinate at a time. *)
Lemma getPointCloudBoundary_scans (cloud : list pcl.PointXYZ) :
  let b := GridMap.getPointCloudBoundary cloud in
  x (fst b) = fold_left (fun a p => std_min a (pcl.px p)) cloud DBL_MAX
  /\ y (fst b) = fold_left (fun a p => std_min a (pcl.py p)) cloud DBL_MAX
  /\ z (fst b) = fold_left (fun a p => std_min a (pcl.pz p)) cloud DBL_MAX
  /\ x (snd b) = fold_left (fun a p => std_max a (pcl.px p)) cloud DBL_MIN
  /\ y (snd b) = fold_left (fun a p => std_max a (pcl.py p)) cloud DBL_MIN
  /\ z (snd b) = fold_left (fun a p => std_max a (pcl.pz p)) cloud DBL_MIN.
Proof.
  unfold GridMap.getPointCloudBoundary.
  change DBL_MAX with (x GridMap.sentinel_min) at 1.
  change DBL_MAX with (y GridMap.sentinel_min) at 1.
  change DBL_MAX with (z GridMap.sentinel_min) at 1.
  change DBL_MIN with (x GridMap.sentinel_max) at 1.
  change DBL_MIN with (y GridMap.sentinel_max) at 1.
  change DBL_MIN with (z GridMap.sentinel_max) at 1.
  generalize GridMap.sentinel_min, GridMap.sentinel_max.
  induction cloud as [|q cloud IH]; intros mn mx; cbn [fold_left].
  - repeat split.
  - apply IH.
Qed.

Lemma boundary_contains (cloud : list pcl.PointXYZ) (p : pcl.PointXYZ) :
  In p cloud ->
  let b := GridMap.getPointCloudBoundary cloud in
  (x (fst b) <= pcl.px p)%Q /\ (pcl.px p <= x (snd b))%Q
  /\ (y (fst b) <= pcl.py p)%Q /\ (pcl.py p <= y (snd b))%Q
  /\ (z (fst b) <= pcl.pz p)%Q /\ (pcl.pz p <= z (snd b))%Q.
Proof.
  intros Hp b.
  destruct (getPointCloudBoundary_scans cloud) as (E1 & E2 & E3 & E4 & E5 & E6).
  fold b in E1, E2, E3, E4, E5, E6.
  rewrite E1, E2, E3, E4, E5, E6.
  split; [apply (scan_min pcl.px), Hp|]. split; [apply (scan_max pcl.px), Hp|].
  split; [apply (scan_min pcl.py), Hp|]. split; [apply (scan_max pcl.py), Hp|].
  split; [apply (scan_min pcl.pz), Hp | apply (scan_max pcl.pz), Hp].
Qed.

(** Every point of the cloud lies inside the box that the pass returns,
    on each of the three axes. *)
Theorem getPointCloudBoundary_contains (cloud : list pcl.PointXYZ) (p : pcl.PointXYZ) :
  In p cloud ->
  let b := GridMap.getPointCloudBoundary cloud in
  (x (fst b) <= pcl.px p)%Q /\ (pcl.px p <= x (snd b))%Q
  /\ (y (fst b) <= pcl.py p)%Q /\ (pcl.py p <= y (snd b))%Q
  /\ (z (fst b) <= pcl.pz p)%Q /\ (pcl.pz p <= z (snd b))%Q.
Proof.
  intros Hp b.
  destruct (boundary_contains cloud p Hp) as (H1 & H2 & H3 & H4 & H5 & H6).
  repeat split; assumption.
Qed.

Lemma getPointCloudBoundary_contains_witness :
  In {| pcl.px := 5 # 4; pcl.py := - 2; pcl.pz := - (1 # 2) |} two_points
  /\ (x (fst (GridMap.getPointCloudBoundary two_points)) <= 5 # 4)%Q
  /\ (5 # 4 <= x (snd (GridMap.getPointCloudBoundary two_points)))%Q
  /\ (y (fst (GridMap.getPointCloudBoundary two_points)) <= - 2)%Q
  /\ (- 2 <= y (snd (GridMap.getPointCloudBoundary two_points)))%Q.
Proof.
  assert (Hin : In {| pcl.px := 5 # 4; pcl.py := - 2; pcl.pz := - (1 # 2) |} two_points)
    by (right; left; reflexivity).
  split; [exact Hin|].
  destruct (getPointCloudBoundary_contains two_points _ Hin) as (H1 & H2 & H3 & H4 & _).
  repeat split; assumption.
Defined.

(** The box is tight where it can be: each coordinate of its lower corner
    is the largest double or the coordinate of a point, each coordinate of
    its upper corner the smallest positive normal double or the coordinate
    of a point. *)
Theorem getPointCloudBoundary_attained (cloud : list pcl.PointXYZ) :
  let b := GridMap.getPointCloudBoundary cloud in
  (x (fst b) = DBL_MAX \/ exists p, In p cloud /\ x (fst b) = pcl.px p)
  /\ (y (fst b) = DBL_MAX \/ exists p, In p cloud /\ y (fst b) = pcl.py p)
  /\ (z (fst b) = DBL_MAX \/ exists p, In p cloud /\ z (fst b) = pcl.pz p)
  /\ (x (snd b) = DBL_MIN \/ exists p, In p cloud /\ x (snd b) = pcl.px p)
  /\ (y (snd b) = DBL_MIN \/ exists p, In p cloud /\ y (snd b) = pcl.py p)
  /\ (z (snd b) = DBL_MIN \/ exists p, In p cloud /\ z (snd b) = pcl.pz p).
Proof.
  intros b.
  destruct (getPointCloudBoundary_scans cloud) as (E1 & E2 & E3 & E4 & E5 & E6).
  fold b in E1, E2, E3, E4, E5, E6.
  rewrite E1, E2, E3, E4, E5, E6.
  split; [apply (scan_min pcl.px)|]. split; [apply (scan_min pcl.py)|].
  split; [apply (scan_min pcl.pz)|]. split; [apply (scan_max pcl.px)|].
  split; [apply (scan_max pcl.py) | apply (scan_max pcl.pz)].
Qed.

(** The upper corner starts from the smallest positive double, not from
    the lowest one: it is positive on every axis whatever the cloud, and
    on an axis where no point is positive it stays at that start, above
    every point. *)
Theorem getPointCloudBoundary_upper_positive (cloud : list pcl.PointXYZ) :
  let b := GridMap.getPointCloudBoundary cloud in
  ((0 < x (snd b))%Q /\ (0 < y (snd b))%Q /\ (0 < z (snd b))%Q)
  /\ ((forall p, In p cloud -> (pcl.px p <= 0)%Q) -> x (snd b) = DBL_MIN)
  /\ ((forall p, In p cloud -> (pcl.py p <= 0)%Q) -> y (snd b) = DBL_MIN)
  /\ ((forall p, In p cloud -> (pcl.pz p <= 0)%Q) -> z (snd b) = DBL_MIN).
Proof.
  intros b.
  destruct (getPointCloudBoundary_scans cloud) as (_ & _ & _ & E4 & E5 & E6).
  fold b in E4, E5, E6. rewrite E4, E5, E6.
  assert (Hpos : (0 < DBL_MIN)%Q) by reflexivity.
  assert (Hstay : forall f : pcl.PointXYZ -> Q,
             (forall p, In p cloud -> (f p <= 0)%Q) ->
             fold_left (fun a p => std_max a (f p)) cloud DBL_MIN = DBL_MIN).
  { intros f Hf.
    destruct (scan_max f cloud DBL_MIN) as (_ & Hle & [E|(p & Hp & E)]); [exact E|].
    exfalso. pose proof (Hf p Hp). pose proof (scan_max f cloud DBL_MIN) as (H0 & _).
    cbv zeta in H0. rewrite E in H0. lra. }
  split; [|split; [apply Hstay | split; apply Hstay]].
  split; [|split].
  - pose proof (scan_max pcl.px cloud DBL_MIN) as (H0 & _). cbv zeta in H0. lra.
  - pose proof (scan_max pcl.py cloud DBL_MIN) as (H0 & _). cbv zeta in H0. lra.
  - pose proof (scan_max pcl.pz cloud DBL_MIN) as (H0 & _). cbv zeta in H0. lra.
Qed.

(** * Reading and writing cells *)

(** A value written through [at(idx)] is what [at(idx)] reads next, every
    other cell reads as before, and the geometry, the bounds and the
    minimum expansion size are untouched. *)
Theorem at_set_at (g : GridMap.t) (i v : Z) :
  0 <= i < Z.of_nat (length (data (GridMap.grid_map g))) ->
  exists g',
    GridMap.set_at g i v = Some g'
    /\ GridMap.at_ g' i = Some v
    /\ (forall j, j <> i -> GridMap.at_ g' j = GridMap.at_ g j)
    /\ length (data (GridMap.grid_map g')) = length (data (GridMap.grid_map g))
    /\ info (GridMap.grid_map g') = info (GridMap.grid_map g)
    /\ GridMap.min g' = GridMap.min g /\ GridMap.max g' = GridMap.max g
    /\ GridMap.min_expansion_size g' = GridMap.min_expansion_size g.
Proof.
  intros Hi. unfold GridMap.set_at.
  destruct (cell_inside _ _ Hi) as [v0 Hv0].
  change (cell (data (GridMap.grid_map g)) i) with (GridMap.at_ g i) in Hv0.
  rewrite Hv0. eexists. split; [reflexivity|].
  set (d := data (GridMap.grid_map g)) in *.
  assert (L : length (firstn (Z.to_nat i) d) = Z.to_nat i)
    by (rewrite length_firstn; lia).
  unfold GridMap.at_. cbn [GridMap.grid_map GridMap.with_data data info
                           GridMap.min GridMap.max GridMap.min_expansion_size].
  fold d.
  split; [|split; [|split; [|repeat split]]].
  - destruct (Z.ltb_spec i 0); [lia|].
    rewrite nth_error_app2 by lia. rewrite L, Nat.sub_diag. reflexivity.
  - intros j Hj. destruct (Z.ltb_spec j 0); [reflexivity|].
    destruct (Z_lt_le_dec j i).
    + rewrite nth_error_app1 by lia.
      rewrite nth_error_firstn.
      destruct (Nat.ltb_spec (Z.to_nat j) (Z.to_nat i)); [reflexivity | lia].
    + rewrite nth_error_app2 by lia. rewrite L.
      destruct (Z.to_nat j - Z.to_nat i)%nat as [|k] eqn:Ek; [lia|].
      cbn [nth_error]. rewrite nth_error_skipn. f_equal. lia.
  - rewrite length_app, L. cbn [length]. rewrite length_skipn. lia.
Qed.

Lemma at_set_at_witness :
  0 <= 60 < Z.of_nat (length (data (GridMap.grid_map unit_square)))
  /\ exists g',
      GridMap.set_at unit_square 60 5 = Some g'
      /\ GridMap.at_ g' 60 = Some 5
      /\ GridMap.at_ g' 61 = Some int8_min.
Proof.
  assert (Hi : 0 <= 60 < Z.of_nat (length (data (GridMap.grid_map unit_square))))
    by (vm_compute; intuition discriminate).
  split; [exact Hi|].
  destruct (at_set_at unit_square 60 5 Hi) as (g' & E & Hr & Hf & _).
  exists g'. split; [exact E|]. split; [exact Hr|].
  rewrite Hf by discriminate. reflexivity.
Defined.

(** * Further properties of [resize] *)

Lemma resize_result_holds_box (g g' : GridMap.t) (rmin rmax : Vector3) :
  (0 < resolution (info (GridMap.grid_map g)))%Q ->
  GridMap.resize g rmin rmax = Some g' ->
  (x (GridMap.min g') <= x rmin)%Q /\ (y (GridMap.min g') <= y rmin)%Q
  /\ (x rmax <= x (GridMap.max g'))%Q /\ (y rmax <= y (GridMap.max g'))%Q.
Proof.
  intros Hres E.
  destruct (GridMap.covers g rmin rmax) eqn:Hc.
  - unfold GridMap.resize in E. rewrite Hc in E. injection E as <-.
    apply covers_iff, Hc.
  - destruct (resize_bounds g g' rmin rmax Hc E) as (-> & -> & _).
    pose proof (grown_bounds_cover g rmin rmax Hres) as H.
    destruct (GridMap.grown_bounds g rmin rmax). exact H.
Qed.

(** At a positive resolution the bounds of the grid map that [resize]
    returns hold the requested box in x and y. *)
Theorem resize_holds_request (g g' : GridMap.t) (rmin rmax : Vector3) :
  (0 < resolution (info (GridMap.grid_map g)))%Q ->
  GridMap.resize g rmin rmax = Some g' ->
  (x (GridMap.min g') <= x rmin)%Q /\ (y (GridMap.min g') <= y rmin)%Q
  /\ (x rmax <= x (GridMap.max g'))%Q /\ (y rmax <= y (GridMap.max g'))%Q.
Proof.
  intros Hres E.
  destruct (resize_result_holds_box g g' rmin rmax Hres E) as (H1 & H2 & H3 & H4).
  repeat split; assumption.
Qed.

(** A filled grid map never shrinks: at a positive resolution [resize]
    moves no lower edge up and no upper edge down, and leaves the z of both
    corners alone. *)
Theorem resize_never_shrinks (g g' : GridMap.t) (rmin rmax : Vector3) :
  GridMap.empty g = false ->
  (0 < resolution (info (GridMap.grid_map g)))%Q ->
  GridMap.resize g rmin rmax = Some g' ->
  (x (GridMap.min g') <= x (GridMap.min g))%Q
  /\ (y (GridMap.min g') <= y (GridMap.min g))%Q
  /\ (x (GridMap.max g) <= x (GridMap.max g'))%Q
  /\ (y (GridMap.max g) <= y (GridMap.max g'))%Q
  /\ z (GridMap.min g') = z (GridMap.min g)
  /\ z (GridMap.max g') = z (GridMap.max g).
Proof.
  intros He Hres E.
  destruct (GridMap.covers g rmin rmax) eqn:Hc.
  - unfold GridMap.resize in E. rewrite Hc in E. injection E as <-.
    repeat split; apply Qle_refl.
  - destruct (resize_bounds g g' rmin rmax Hc E) as (-> & -> & _).
    unfold GridMap.grown_bounds. rewrite He. cbn [fst snd x y z].
    set (res := resolution (info (GridMap.grid_map g))) in *.
    set (mes := GridMap.min_expansion_size g).
    assert (Hgrow : forall d, (0 < d)%Q -> (0 <= std_max (pceil d res) mes)%Q).
    { intros d Hd. pose proof (std_max_l (pceil d res) mes).
      pose proof (pceil_ge d res Hres). lra. }
    repeat split.
    + destruct (Qlt_bool (x rmin) (x (GridMap.min g))) eqn:Eb; [|apply Qle_refl].
      apply Qlt_bool_iff in Eb.
      pose proof (Hgrow (x (GridMap.min g) - x rmin)%Q ltac:(lra)). lra.
    + destruct (Qlt_bool (y rmin) (y (GridMap.min g))) eqn:Eb; [|apply Qle_refl].
      apply Qlt_bool_iff in Eb.
      pose proof (Hgrow (y (GridMap.min g) - y rmin)%Q ltac:(lra)). lra.
    + destruct (Qlt_bool (x (GridMap.max g)) (x rmax)) eqn:Eb; [|apply Qle_refl].
      apply Qlt_bool_iff in Eb.
      pose proof (Hgrow (x rmax - x (GridMap.max g))%Q ltac:(lra)). lra.
    + destruct (Qlt_bool (y (GridMap.max g)) (y rmax)) eqn:Eb; [|apply Qle_refl].
      apply Qlt_bool_iff in Eb.
      pose proof (Hgrow (y rmax - y (GridMap.max g))%Q ltac:(lra)). lra.
Qed.

Lemma consistent_filled (g : GridMap.t) : consistent g -> GridMap.empty g = false.
Proof.
  intros (_ & _ & _ & Hw & Hh & _ & _ & Hinv & _).
  unfold size_invariant in Hinv. unfold GridMap.empty.
  destruct (data (GridMap.grid_map g)); [cbn in Hinv; nia | reflexivity].
Qed.

Lemma resize_info (g g' : GridMap.t) (rmin rmax : Vector3) :
  GridMap.covers g rmin rmax = false ->
  GridMap.resize g rmin rmax = Some g' ->
  info (GridMap.grid_map g')
  = info (GridMap.allocate (GridMap.grid_map g)
            (fst (GridMap.grown_bounds g rmin rmax))
            (snd (GridMap.grown_bounds g rmin rmax)))
  /\ header (GridMap.grid_map g') = header (GridMap.grid_map g).
Proof.
  intros Hc. unfold GridMap.resize. rewrite Hc.
  destruct (GridMap.grown_bounds g rmin rmax) as [mn mx].
  destruct (GridMap.copy_rows _ _ _ _ _ _ _); [|discriminate].
  intros E. injection E as <-. split; reflexivity.
Qed.

Lemma index_has_cell (g : GridMap.t) (wx wy : Q) (i : Z) :
  consistent g ->
  GridMap.getGridMapIndex_world (GridMap.grid_map g) wx wy 0 = (true, i) ->
  exists v, GridMap.at_ g i = Some v.
Proof.
  intros (_ & _ & _ & _ & _ & _ & _ & Hinv & Hfit & _) E.
  destruct (getGridMapIndex_world_inside _ _ _ _ _ Hfit E) as (Hx & Hy & ->).
  apply cell_inside. unfold size_invariant in Hinv. rewrite <- Hinv.
  match type of Hy with
  | 0 <= ?gy < ?h =>
      assert (gy * width (info (GridMap.grid_map g))
              <= (h - 1) * width (info (GridMap.grid_map g)))
        by (apply Z.mul_le_mono_nonneg_r; lia)
  end.
  nia.
Qed.

(** [resize] on a consistent grid map, for any box: covered or not. *)
Lemma resize_any_box (g : GridMap.t) (rmin rmax : Vector3) :
  consistent g ->
  let res := resolution (info (GridMap.grid_map g)) in
  let mn := fst (GridMap.grown_bounds g rmin rmax) in
  let mx := snd (GridMap.grown_bounds g rmin rmax) in
  (ceil ((x mx - x mn) / res) + 1) * (ceil ((y mx - y mn) / res) + 1) <= INT_MAX ->
  exists g',
    GridMap.resize g rmin rmax = Some g'
    /\ consistent g'
    /\ width (info (GridMap.grid_map g)) <= width (info (GridMap.grid_map g'))
    /\ height (info (GridMap.grid_map g)) <= height (info (GridMap.grid_map g'))
    /\ forall wx wy i,
        GridMap.getGridMapIndex_world (GridMap.grid_map g) wx wy 0 = (true, i) ->
        exists v i',
          GridMap.at_ g i = Some v
          /\ GridMap.getGridMapIndex_world (GridMap.grid_map g') wx wy 0 = (true, i')
          /\ GridMap.at_ g' i' = Some v.
Proof.
  intros Hc res mn mx Hfit.
  pose proof (consistent_filled g Hc) as He.
  destruct (GridMap.covers g rmin rmax) eqn:Hcov.
  - exists g. unfold GridMap.resize. rewrite Hcov.
    split; [reflexivity|]. split; [exact Hc|]. split; [lia|]. split; [lia|].
    intros wx wy i E. destruct (index_has_cell g wx wy i Hc E) as [v Hv].
    exists v, i. auto.
  - destruct (resize_preserves_cells g rmin rmax Hc He Hcov Hfit) as (g' & E & Hc' & Hcells).
    exists g'. split; [exact E|]. split; [exact Hc'|].
    destruct (resize_info g g' rmin rmax Hcov E) as [Ei _].
    destruct (allocate_geometry g rmin rmax Hc He Hfit)
      as (jx & jy & Hjx & Hjy & _ & _ & Hw & Hh & _).
    rewrite Ei. split; [lia|]. split; [lia | exact Hcells].
Qed.

(** [resize] keeps a consistent grid map consistent, whatever box is
    requested, as long as the new grid can be indexed by an [int]; its
    width and height never decrease. *)
Theorem resize_keeps_consistent (g : GridMap.t) (rmin rmax : Vector3) :
  consistent g ->
  let res := resolution (info (GridMap.grid_map g)) in
  let mn := fst (GridMap.grown_bounds g rmin rmax) in
  let mx := snd (GridMap.grown_bounds g rmin rmax) in
  (ceil ((x mx - x mn) / res) + 1) * (ceil ((y mx - y mn) / res) + 1) <= INT_MAX ->
  exists g',
    GridMap.resize g rmin rmax = Some g'
    /\ consistent g'
    /\ width (info (GridMap.grid_map g)) <= width (info (GridMap.grid_map g'))
    /\ height (info (GridMap.grid_map g)) <= height (info (GridMap.grid_map g')).
Proof.
  intros Hc res mn mx Hfit.
  destruct (resize_any_box g rmin rmax Hc Hfit) as (g' & E & Hc' & Hw & Hh & _).
  exists g'. split; [exact E|]. split; [exact Hc'|]. split; [exact Hw | exact Hh].
Qed.


(** * From the first allocation on *)

Lemma span_nonneg (res lo hi : Q) :
  (0 < res)%Q -> (lo <= hi)%Q ->
  0 <= ceil ((pceil hi res - pfloor lo res) / res).
Proof.
  intros Hres Hle. unfold ceil.
  rewrite <- (Qceiling_Z 0). apply Qceiling_resp_le.
  change (inject_Z 0) with 0%Q.
  apply Qle_shift_div_l; [exact Hres|].
  pose proof (pceil_ge hi res Hres). pose proof (pfloor_le lo res Hres). lra.
Qed.

Lemma sentinels_hold_no_box (frame : string) (res e : Q) (rmin rmax : Vector3) :
  (x rmin <= x rmax)%Q ->
  GridMap.covers (GridMap.create frame res e) rmin rmax = false.
Proof.
  intros Hx.
  destruct (GridMap.covers (GridMap.create frame res e) rmin rmax) eqn:E; [|reflexivity].
  apply covers_iff in E. cbn in E. destruct E as (H1 & _ & H3 & _).
  assert (H : (DBL_MAX <= DBL_MIN)%Q) by (eapply Qle_trans; [exact H1|]; lra).
  vm_compute in H. exfalso. apply H. reflexivity.
Qed.

Lemma span_comp (s s' lo hi : Q) :
  (s == s')%Q ->
  ceil ((pceil hi s - pfloor lo s) / s) = ceil ((pceil hi s' - pfloor lo s') / s').
Proof.
  intros H. unfold pceil, pfloor, ceil, floor.
  assert (E1 : Qceiling (hi / s) = Qceiling (hi / s'))
    by (apply Qceiling_comp; rewrite H; reflexivity).
  assert (E2 : Qfloor (lo / s) = Qfloor (lo / s'))
    by (apply Qfloor_comp; rewrite H; reflexivity).
  rewrite E1, E2. apply Qceiling_comp. rewrite H. reflexivity.
Qed.

(** The first [resize] after [create], when the resolution passed to
    [create] is a number of single precision, so that the message holds it
    unchanged and the expansion size is a multiple of what it holds. *)
Lemma create_first_resize (frame : string) (res e : Q) (rmin rmax : Vector3) :
  (0 < res)%Q -> (to_float res == res)%Q ->
  (x rmin <= x rmax)%Q -> (y rmin <= y rmax)%Q ->
  let cols := ceil ((pceil (x rmax) res - pfloor (x rmin) res) / res) in
  let rows := ceil ((pceil (y rmax) res - pfloor (y rmin) res) / res) in
  (cols + 1) * (rows + 1) <= INT_MAX ->
  exists g',
    GridMap.resize (GridMap.create frame res e) rmin rmax = Some g'
    /\ consistent g'
    /\ Forall (fun c => c = int8_min) (data (GridMap.grid_map g')).
Proof.
  intros Hres Hex Hx Hy cols rows Hfit.
  set (g := GridMap.create frame res e).
  pose proof (sentinels_hold_no_box frame res e rmin rmax Hx) as Hc. fold g in Hc.
  set (r := resolution (info (GridMap.grid_map g))).
  assert (Er : (r == res)%Q) by exact Hex.
  assert (Hr : (0 < r)%Q) by (rewrite Er; exact Hres).
  assert (Hmes : aligned r (GridMap.min_expansion_size g)).
  { exists (ceil (e / res)).
    change (GridMap.min_expansion_size g) with (pceil e res).
    unfold pceil. rewrite Er. reflexivity. }
  assert (Ecols : ceil ((pceil (x rmax) r - pfloor (x rmin) r) / r) = cols).
  { apply span_comp, Er. }
  assert (Erows : ceil ((pceil (y rmax) r - pfloor (y rmin) r) / r) = rows).
  { apply span_comp, Er. }
  destruct (resize_first_allocation_consistent g rmin rmax eq_refl Hc eq_refl Hr Hmes)
    as (g' & E & Hc').
  - fold r. rewrite Ecols. apply span_nonneg; assumption.
  - fold r. rewrite Erows. apply span_nonneg; assumption.
  - fold r. rewrite Ecols, Erows. exact Hfit.
  - exists g'. split; [exact E|]. split; [exact Hc'|].
    rewrite (resize_empty_buffer g rmin rmax eq_refl Hc eq_refl) in E.
    injection E as <-. cbn [GridMap.grid_map GridMap.allocate data].
    apply Forall_forall. intros c Hin. eapply repeat_spec, Hin.
Qed.



(** * Resizing to a cloud *)

Lemma resize_cloud_filled (g : GridMap.t) (cloud : list pcl.PointXYZ) :
  cloud <> [] ->
  GridMap.resize_cloud g cloud
  = GridMap.resize g (fst (GridMap.getPointCloudBoundary cloud))
                   (snd (GridMap.getPointCloudBoundary cloud)).
Proof.
  intros Hne. destruct cloud as [|p cloud]; [contradiction|].
  unfold GridMap.resize_cloud.
  destruct (GridMap.getPointCloudBoundary (p :: cloud)). reflexivity.
Qed.

(** After [resize(cloud)] on a consistent grid map every point of the
    cloud has a cell, the grid map is still consistent, and the cells it
    had are kept (the new grid being one an [int] can index). *)
Theorem resize_cloud_cells (g : GridMap.t) (cloud : list pcl.PointXYZ) :
  consistent g -> cloud <> [] ->
  let res := resolution (info (GridMap.grid_map g)) in
  let b := GridMap.getPointCloudBoundary cloud in
  let mn := fst (GridMap.grown_bounds g (fst b) (snd b)) in
  let mx := snd (GridMap.grown_bounds g (fst b) (snd b)) in
  (ceil ((x mx - x mn) / res) + 1) * (ceil ((y mx - y mn) / res) + 1) <= INT_MAX ->
  exists g',
    GridMap.resize_cloud g cloud = Some g'
    /\ consistent g'
    /\ forall p, In p cloud ->
                 exists i v,
                   GridMap.getGridMapIndex_world (GridMap.grid_map g')
                                                 (pcl.px p) (pcl.py p) 0 = (true, i)
                   /\ GridMap.at_ g' i = Some v.
Proof.
  intros Hc Hne res b mn mx Hfit.
  rewrite (resize_cloud_filled g cloud Hne). fold b.
  destruct (resize_any_box g (fst b) (snd b) Hc Hfit) as (g' & E & Hc' & _).
  exists g'. split; [exact E|]. split; [exact Hc'|].
  intros p Hp.
  destruct Hc as (Hres & _).
  destruct (resize_result_holds_box g g' (fst b) (snd b) Hres E) as (B1 & B2 & B3 & B4).
  destruct (boundary_contains cloud p Hp) as (P1 & P2 & P3 & P4 & _).
  fold b in P1, P2, P3, P4.
  apply (bounds_have_cells g' (pcl.px p) (pcl.py p) Hc'); lra.
Qed.

(** After [resize(cloud)] on a grid map that [create] has built at a
    positive resolution that single precision holds exactly, for a cloud
    that is not empty, the grid map is consistent and every point of the
    cloud has a cell, which holds the unknown value. *)
Theorem create_resize_cloud (frame : string) (res e : Q) (cloud : list pcl.PointXYZ) :
  (0 < res)%Q -> (to_float res == res)%Q -> cloud <> [] ->
  let b := GridMap.getPointCloudBoundary cloud in
  let cols := ceil ((pceil (x (snd b)) res - pfloor (x (fst b)) res) / res) in
  let rows := ceil ((pceil (y (snd b)) res - pfloor (y (fst b)) res) / res) in
  (cols + 1) * (rows + 1) <= INT_MAX ->
  exists g',
    GridMap.resize_cloud (GridMap.create frame res e) cloud = Some g'
    /\ consistent g'
    /\ forall p, In p cloud ->
                 exists i,
                   GridMap.getGridMapIndex_world (GridMap.grid_map g')
                                                 (pcl.px p) (pcl.py p) 0 = (true, i)
                   /\ GridMap.at_ g' i = Some int8_min.
Proof.
  intros Hres Hex Hne b cols rows Hfit.
  rewrite (resize_cloud_filled _ cloud Hne). fold b.
  assert (Hbox : (x (fst b) <= x (snd b))%Q /\ (y (fst b) <= y (snd b))%Q).
  { destruct cloud as [|p0 cloud]; [contradiction|].
    destruct (boundary_contains (p0 :: cloud) p0 (or_introl eq_refl))
      as (P1 & P2 & P3 & P4 & _).
    fold b in P1, P2, P3, P4. split; lra. }
  destruct Hbox as [Hx Hy].
  destruct (create_first_resize frame res e (fst b) (snd b) Hres Hex Hx Hy Hfit)
    as (g' & E & Hc' & Hunk).
  exists g'. split; [exact E|]. split; [exact Hc'|].
  intros p Hp.
  assert (Hr : (0 < to_float res)%Q) by (rewrite Hex; exact Hres).
  destruct (resize_result_holds_box (GridMap.create frame res e) g' (fst b) (snd b) Hr E)
    as (B1 & B2 & B3 & B4).
  destruct (boundary_contains cloud p Hp) as (P1 & P2 & P3 & P4 & _).
  fold b in P1, P2, P3, P4.
  destruct (bounds_have_cells g' (pcl.px p) (pcl.py p) Hc') as (i & v & Ei & Hv); try lra.
  exists i. split; [exact Ei|]. rewrite Hv. f_equal.
  unfold GridMap.at_ in Hv. destruct (i <? 0); [discriminate|].
  apply nth_error_In in Hv. rewrite Forall_forall in Hunk. apply Hunk, Hv.
Qed.

Lemma create_resize_cloud_witness :
  ((0 < 1 # 4)%Q /\ (to_float (1 # 4) == 1 # 4)%Q /\ two_points <> []
   /\ (ceil ((pceil (x (snd (GridMap.getPointCloudBoundary two_points))) (1 # 4)
              - pfloor (x (fst (GridMap.getPointCloudBoundary two_points))) (1 # 4))
             / (1 # 4)) + 1)
      * (ceil ((pceil (y (snd (GridMap.getPointCloudBoundary two_points))) (1 # 4)
                - pfloor (y (fst (GridMap.getPointCloudBoundary two_points))) (1 # 4))
               / (1 # 4)) + 1)
      <= INT_MAX)
  /\ exists g',
      GridMap.resize_cloud (GridMap.create "map" (1 # 4) (1 # 2)) two_points = Some g'
      /\ consistent g'
      /\ exists i,
          GridMap.getGridMapIndex_world (GridMap.grid_map g') (- (3 # 2)) (- (1 # 4)) 0
          = (true, i)
          /\ GridMap.at_ g' i = Some int8_min.
Proof.
  split; [split; [reflexivity
                  | split; [reflexivity
                           | split; [discriminate | vm_compute; discriminate]]]|].
  destruct (create_resize_cloud "map" (1 # 4) (1 # 2) two_points)
    as (g' & E & Hc & Hcell);
    [reflexivity | reflexivity | discriminate | vm_compute; discriminate |].
  exists g'. split; [exact E|]. split; [exact Hc|].
  apply (Hcell {| pcl.px := - (3 # 2); pcl.py := - (1 # 4); pcl.pz := 0 |}).
  left. reflexivity.
Defined.

Lemma resize_cloud_cells_witness :
  (consistent eighth_square /\ two_points <> []
   /\ (ceil ((x (snd (GridMap.grown_bounds eighth_square
                        (fst (GridMap.getPointCloudBoundary two_points))
                        (snd (GridMap.getPointCloudBoundary two_points))))
              - x (fst (GridMap.grown_bounds eighth_square
                          (fst (GridMap.getPointCloudBoundary two_points))
                          (snd (GridMap.getPointCloudBoundary two_points)))))
             / resolution (info (GridMap.grid_map eighth_square))) + 1)
      * (ceil ((y (snd (GridMap.grown_bounds eighth_square
                          (fst (GridMap.getPointCloudBoundary two_points))
                          (snd (GridMap.getPointCloudBoundary two_points))))
                - y (fst (GridMap.grown_bounds eighth_square
                            (fst (GridMap.getPointCloudBoundary two_points))
                            (snd (GridMap.getPointCloudBoundary two_points)))))
               / resolution (info (GridMap.grid_map eighth_square))) + 1)
      <= INT_MAX)
  /\ exists g',
      GridMap.resize_cloud eighth_square two_points = Some g'
      /\ consistent g'
      /\ exists i v,
          GridMap.getGridMapIndex_world (GridMap.grid_map g') (5 # 4) (- 2) 0 = (true, i)
          /\ GridMap.at_ g' i = Some v.
Proof.
  assert (Hfit : (ceil ((x (snd (GridMap.grown_bounds eighth_square
                        (fst (GridMap.getPointCloudBoundary two_points))
                        (snd (GridMap.getPointCloudBoundary two_points))))
              - x (fst (GridMap.grown_bounds eighth_square
                          (fst (GridMap.getPointCloudBoundary two_points))
                          (snd (GridMap.getPointCloudBoundary two_points)))))
             / resolution (info (GridMap.grid_map eighth_square))) + 1)
      * (ceil ((y (snd (GridMap.grown_bounds eighth_square
                          (fst (GridMap.getPointCloudBoundary two_points))
                          (snd (GridMap.getPointCloudBoundary two_points))))
                - y (fst (GridMap.grown_bounds eighth_square
                            (fst (GridMap.getPointCloudBoundary two_points))
                            (snd (GridMap.getPointCloudBoundary two_points)))))
               / resolution (info (GridMap.grid_map eighth_square))) + 1)
      <= INT_MAX) by (vm_compute; discriminate).
  split; [split; [exact eighth_square_consistent | split; [discriminate | exact Hfit]]|].
  destruct (resize_cloud_cells eighth_square two_points eighth_square_consistent
              ltac:(discriminate) Hfit) as (g' & E & Hc & Hcell).
  exists g'. split; [exact E|]. split; [exact Hc|].
  apply (Hcell {| pcl.px := 5 # 4; pcl.py := - 2; pcl.pz := - (1 # 2) |}).
  right. left. reflexivity.
Defined.

(** * What [resize] leaves alone, and [resize] after [clear] *)

(** [resize] never changes the resolution, the minimum expansion size,
    the header or the z of the origin. *)
Theorem resize_fixed_settings (g g' : GridMap.t) (rmin rmax : Vector3) :
  GridMap.resize g rmin rmax = Some g' ->
  resolution (info (GridMap.grid_map g')) = resolution (info (GridMap.grid_map g))
  /\ GridMap.min_expansion_size g' = GridMap.min_expansion_size g
  /\ header (GridMap.grid_map g') = header (GridMap.grid_map g)
  /\ z (origin (info (GridMap.grid_map g'))) = z (origin (info (GridMap.grid_map g))).
Proof.
  intros E. destruct (GridMap.covers g rmin rmax) eqn:Hc.
  - unfold GridMap.resize in E. rewrite Hc in E. injection E as <-. repeat split.
  - destruct (resize_keeps_settings g g' rmin rmax E) as [E1 E2].
    destruct (resize_info g g' rmin rmax Hc E) as [E3 E4].
    split; [exact E1|]. split; [exact E2|]. split; [exact E4|].
    rewrite E3. reflexivity.
Qed.

Lemma resize_fixed_settings_witness :
  GridMap.resize unit_square (vec 0 0 0) (vec (105 # 100) 1 0) = Some grown_square
  /\ resolution (info (GridMap.grid_map grown_square))
     = resolution (info (GridMap.grid_map unit_square))
  /\ GridMap.min_expansion_size grown_square = GridMap.min_expansion_size unit_square.
Proof.
  assert (E : GridMap.resize unit_square (vec 0 0 0) (vec (105 # 100) 1 0)
              = Some grown_square) by (vm_compute; reflexivity).
  split; [exact E|].
  destruct (resize_fixed_settings unit_square grown_square _ _ E) as (H1 & H2 & _).
  split; [exact H1 | exact H2].
Defined.

(** After [clear] on a grid map of positive width and height, a [resize]
    with a box whose lower x is below the largest double copies rows out
    of the emptied buffer: the call is undefined. *)
Theorem resize_after_clear (g : GridMap.t) (rmin rmax : Vector3) :
  0 < width (info (GridMap.grid_map g)) ->
  0 < height (info (GridMap.grid_map g)) ->
  (x rmin < DBL_MAX)%Q ->
  GridMap.empty (GridMap.clear g) = true
  /\ GridMap.resize (GridMap.clear g) rmin rmax = None.
Proof.
  intros Hw Hh Hx. split; [reflexivity|].
  assert (Hc : GridMap.covers (GridMap.clear g) rmin rmax = false).
  { destruct (GridMap.covers (GridMap.clear g) rmin rmax) eqn:E; [|reflexivity].
    apply covers_iff in E. cbn in E. destruct E as (H1 & _). lra. }
  unfold GridMap.resize. rewrite Hc.
  destruct (GridMap.grown_bounds (GridMap.clear g) rmin rmax) as [mn mx].
  cbn [GridMap.clear GridMap.grid_map GridMap.with_seq GridMap.with_data info data].
  destruct (Z.to_nat (height (info (GridMap.grid_map g)))) as [|k] eqn:Ek; [lia|].
  cbn [GridMap.copy_rows]. unfold memcpy.
  destruct (Z.leb_spec (width (info (GridMap.grid_map g))) 0) as [|_]; [lia|].
  cbn [length Z.of_nat Z.add].
  destruct (Z.leb_spec (width (info (GridMap.grid_map g))) 0) as [|_]; [lia|].
  rewrite andb_false_r. reflexivity.
Qed.

Lemma resize_after_clear_witness :
  (0 < width (info (GridMap.grid_map unit_square))
   /\ 0 < height (info (GridMap.grid_map unit_square))
   /\ (0 < DBL_MAX)%Q)
  /\ GridMap.empty (GridMap.clear unit_square) = true
  /\ GridMap.resize (GridMap.clear unit_square) (vec 0 0 0) (vec 2 2 0) = None.
Proof.
  split; [vm_compute; intuition discriminate|].
  apply (resize_after_clear unit_square (vec 0 0 0) (vec 2 2 0)); reflexivity.
Defined.

(** * Witnesses of the properties of [resize] *)

Lemma resize_holds_request_witness :
  ((0 < resolution (info (GridMap.grid_map unit_square)))%Q
   /\ GridMap.resize unit_square (vec 0 0 0) (vec (105 # 100) 1 0) = Some grown_square)
  /\ (x (GridMap.min grown_square) <= 0)%Q /\ (y (GridMap.min grown_square) <= 0)%Q
  /\ (105 # 100 <= x (GridMap.max grown_square))%Q
  /\ (1 <= y (GridMap.max grown_square))%Q.
Proof.
  assert (E : GridMap.resize unit_square (vec 0 0 0) (vec (105 # 100) 1 0)
              = Some grown_square) by (vm_compute; reflexivity).
  split; [split; [reflexivity | exact E]|].
  exact (resize_holds_request unit_square grown_square _ _ eq_refl E).
Defined.

Lemma resize_never_shrinks_witness :
  (GridMap.empty unit_square = false
   /\ (0 < resolution (info (GridMap.grid_map unit_square)))%Q
   /\ GridMap.resize unit_square (vec 0 0 0) (vec (105 # 100) 1 0) = Some grown_square)
  /\ (x (GridMap.min grown_square) <= x (GridMap.min unit_square))%Q
  /\ (x (GridMap.max unit_square) <= x (GridMap.max grown_square))%Q.
Proof.
  assert (E : GridMap.resize unit_square (vec 0 0 0) (vec (105 # 100) 1 0)
              = Some grown_square) by (vm_compute; reflexivity).
  split; [split; [reflexivity | split; [reflexivity | exact E]]|].
  destruct (resize_never_shrinks unit_square grown_square _ _ eq_refl eq_refl E)
    as (H1 & _ & H3 & _).
  split; [exact H1 | exact H3].
Defined.

Lemma resize_idempotent_witness :
  ((0 < resolution (info (GridMap.grid_map unit_square)))%Q
   /\ GridMap.resize unit_square (vec 0 0 0) (vec (105 # 100) 1 0) = Some grown_square)
  /\ GridMap.resize grown_square (vec 0 0 0) (vec (105 # 100) 1 0) = Some grown_square.
Proof.
  assert (E : GridMap.resize unit_square (vec 0 0 0) (vec (105 # 100) 1 0)
              = Some grown_square) by (vm_compute; reflexivity).
  split; [split; [reflexivity | exact E]|].
  exact (resize_idempotent unit_square grown_square _ _ eq_refl E).
Defined.

Lemma resize_keeps_consistent_witness :
  (consistent eighth_square
   /\ (ceil ((x (snd (GridMap.grown_bounds eighth_square (vec 0 0 0) (vec (105 # 100) 1 0)))
              - x (fst (GridMap.grown_bounds eighth_square (vec 0 0 0) (vec (105 # 100) 1 0))))
             / resolution (info (GridMap.grid_map eighth_square))) + 1)
      * (ceil ((y (snd (GridMap.grown_bounds eighth_square (vec 0 0 0) (vec (105 # 100) 1 0)))
                - y (fst (GridMap.grown_bounds eighth_square (vec 0 0 0) (vec (105 # 100) 1 0))))
               / resolution (info (GridMap.grid_map eighth_square))) + 1)
      <= INT_MAX)
  /\ exists g',
      GridMap.resize eighth_square (vec 0 0 0) (vec (105 # 100) 1 0) = Some g'
      /\ consistent g'
      /\ 9 <= width (info (GridMap.grid_map g')).
Proof.
  split; [split; [exact eighth_square_consistent | vm_compute; discriminate]|].
  destruct (resize_keeps_consistent eighth_square (vec 0 0 0) (vec (105 # 100) 1 0)
              eighth_square_consistent)
    as (g' & E & Hc & Hw & _); [vm_compute; discriminate|].
  exists g'. split; [exact E|]. split; [exact Hc | exact Hw].
Defined.


Lemma resize_origin_converts_witness :
  (consistent eighth_square /\ GridMap.empty eighth_square = false
   /\ (ceil ((x (snd (GridMap.grown_bounds eighth_square (vec (- (1 # 2)) 0 0) (vec 1 1 0)))
              - x (fst (GridMap.grown_bounds eighth_square (vec (- (1 # 2)) 0 0) (vec 1 1 0))))
             / resolution (info (GridMap.grid_map eighth_square))) + 1)
      * (ceil ((y (snd (GridMap.grown_bounds eighth_square (vec (- (1 # 2)) 0 0) (vec 1 1 0)))
                - y (fst (GridMap.grown_bounds eighth_square (vec (- (1 # 2)) 0 0) (vec 1 1 0))))
               / resolution (info (GridMap.grid_map eighth_square))) + 1)
      <= INT_MAX)
  /\ exists new_idx,
      GridMap.getGridMapIndex_world
        (GridMap.allocate (GridMap.grid_map eighth_square)
           (fst (GridMap.grown_bounds eighth_square (vec (- (1 # 2)) 0 0) (vec 1 1 0)))
           (snd (GridMap.grown_bounds eighth_square (vec (- (1 # 2)) 0 0) (vec 1 1 0))))
        (x (origin (info (GridMap.grid_map eighth_square))))
        (y (origin (info (GridMap.grid_map eighth_square)))) 0
      = (true, new_idx).
Proof.
  split; [split; [exact eighth_square_consistent
                 | split; [reflexivity | vm_compute; discriminate]]|].
  destruct (resize_origin_converts eighth_square (vec (- (1 # 2)) 0 0) (vec 1 1 0)
              eighth_square_consistent eq_refl)
    as (i & E & _); [vm_compute; discriminate|].
  exists i. exact E.
Defined.

Lemma resize_size_witness :
  (GridMap.covers unit_square (vec 0 0 0) (vec (105 # 100) 1 0) = false
   /\ GridMap.resize unit_square (vec 0 0 0) (vec (105 # 100) 1 0) = Some grown_square)
  /\ Z.of_nat (length (data (GridMap.grid_map grown_square)))
     = to_uint (width (info (GridMap.grid_map grown_square))
                * height (info (GridMap.grid_map grown_square))).
Proof.
  assert (E : GridMap.resize unit_square (vec 0 0 0) (vec (105 # 100) 1 0)
              = Some grown_square) by (vm_compute; reflexivity).
  split; [split; [reflexivity | exact E]|].
  exact (resize_size unit_square grown_square (vec 0 0 0) (vec (105 # 100) 1 0) eq_refl E).
Defined.

(** * The cells that [resize] adds *)

Section RowFrame.

Variables (old_w new_w h base : Z) (src : list Z).

Hypothesis old_w_pos : 0 < old_w.
Hypothesis new_w_wider : old_w <= new_w.
Hypothesis base_nonneg : 0 <= base.
Hypothesis src_cells : old_w * h = Z.of_nat (length src).
Hypothesis src_int : old_w * h <= INT_MAX.


End RowFrame.


